(** * draw.io Desktop: the trusted-boundary mediation layer

    A shallow embedding of the path and content validator
    ([src/utils/security.js]), the persistent file store
    ([src/services/FileService.js]) and the boundary dispatcher
    ([src/ipc/handlers.js]), with the properties the specification
    states about them.

    Conventions.
    - A JavaScript string is the list of its UTF-16 code units, each a
      number in [N].  Literals are written [js "..."].
    - A [Buffer] / [Uint8Array] is a list of bytes, each a number in [N].
    - Node's [path] module is modelled for POSIX hosts ([path.posix]).
    - Asynchronous functions are run to completion in program order; the
      file system, the clock and the log of system calls are threaded
      through a state-and-exception monad. *)

From Stdlib Require Import ZArith NArith Ascii String List Bool Lia.
From stdpp Require Import base option list gmap.
From Equations Require Import Equations.
Import ListNotations.

Local Open Scope N_scope.

(* ===================================================================== *)
(** * JavaScript strings *)
(* ===================================================================== *)

Module JS.

Abbreviation jsstring := (list N).

(** A string literal: one code unit per character. *)
Fixpoint js (s : string) : jsstring :=
  match s with
  | EmptyString => []
  | String a r => N_of_ascii a :: js r
  end.

(** A character constant. *)
Definition ch (a : ascii) : N := N_of_ascii a.

(** [s.startsWith(p)] *)
Fixpoint startsWith (s p : jsstring) {struct p} : bool :=
  match p with
  | [] => true
  | b :: p' =>
      match s with
      | [] => false
      | a :: s' => (a =? b) && startsWith s' p'
      end
  end.

(** [s.endsWith(p)] *)
Definition endsWith (s p : jsstring) : bool :=
  startsWith (rev s) (rev p).

(** [s.includes(p)]; also the test of a regular expression that is a
    plain literal, such as [/\.\./]. *)
Fixpoint includes (s p : jsstring) : bool :=
  startsWith s p ||
  match s with
  | [] => false
  | _ :: s' => includes s' p
  end.

(** Canonicalisation of a code unit under the [i] flag of a regular
    expression without the [u] flag.  For an ASCII pattern only the two
    ASCII cases of a letter match it: a character above 127 never
    canonicalises to one below 128. *)
Definition canonicalize (c : N) : N :=
  if (97 <=? c) && (c <=? 122) then c - 32 else c.

(** The test of a case-insensitive literal such as [/<script/i]. *)
Definition includes_i (s p : jsstring) : bool :=
  includes (List.map canonicalize s) (List.map canonicalize p).

(** [s.substring(0, n)] *)
Definition substring0 (n : nat) (s : jsstring) : jsstring := firstn n s.

(** [\s] of a regular expression, which is also what [trim] removes:
    white space and line terminators. *)
Definition is_space (c : N) : bool :=
  ((9 <=? c) && (c <=? 13)) || (c =? 32) || (c =? 160) || (c =? 5760)
  || ((8192 <=? c) && (c <=? 8202)) || (c =? 8232) || (c =? 8233)
  || (c =? 8239) || (c =? 8287) || (c =? 12288) || (c =? 65279).

Fixpoint trimStart (s : jsstring) : jsstring :=
  match s with
  | [] => []
  | c :: r => if is_space c then trimStart r else s
  end.

Definition trimEnd (s : jsstring) : jsstring := rev (trimStart (rev s)).

(** [s.trim()] *)
Definition trim (s : jsstring) : jsstring := trimEnd (trimStart s).

(** Decimal digits of a counter, for template strings such as
    [`_${counter}`]. *)
Fixpoint digits_fuel (fuel : nat) (n : N) (acc : jsstring) : jsstring :=
  match fuel with
  | O => acc
  | S fuel' =>
      let acc' := (48 + n mod 10) :: acc in
      if n <? 10 then acc' else digits_fuel fuel' (n / 10) acc'
  end.

Definition num_to_js (n : N) : jsstring :=
  digits_fuel (S (N.to_nat (N.log2 n))) n [].

End JS.
Export JS.

(* ===================================================================== *)
(** * Node's path module, POSIX flavour *)
(* ===================================================================== *)

Module Path.

Definition slash : N := 47.
Definition dot : N := 46.

(** The segments between separators, empty ones included. *)
Fixpoint split_acc (s : jsstring) (cur : jsstring) : list jsstring :=
  match s with
  | [] => [rev cur]
  | c :: r => if c =? slash then rev cur :: split_acc r [] else split_acc r (c :: cur)
  end.

Definition split (s : jsstring) : list jsstring := split_acc s [].

Fixpoint join_segs (segs : list jsstring) : jsstring :=
  match segs with
  | [] => []
  | [x] => x
  | x :: r => x ++ slash :: join_segs r
  end.

Definition is_dotdot (seg : jsstring) : bool :=
  match seg with
  | [a; b] => (a =? dot) && (b =? dot)
  | _ => false
  end.

Definition is_dot (seg : jsstring) : bool :=
  match seg with
  | [a] => a =? dot
  | _ => false
  end.

(** [normalizeString]: walks the segments keeping a stack (most recent
    first).  Empty and [.] segments vanish; [..] pops a real segment,
    and is kept only above the root of a relative path. *)
Fixpoint normalize_stack (allowAboveRoot : bool) (segs : list jsstring)
    (stack : list jsstring) : list jsstring :=
  match segs with
  | [] => stack
  | seg :: r =>
      if match seg with [] => true | _ => false end || is_dot seg
      then normalize_stack allowAboveRoot r stack
      else if is_dotdot seg then
        match stack with
        | top :: below =>
            if is_dotdot top
            then normalize_stack allowAboveRoot r
                   (if allowAboveRoot then seg :: stack else stack)
            else normalize_stack allowAboveRoot r below
        | [] =>
            normalize_stack allowAboveRoot r
              (if allowAboveRoot then [seg] else [])
        end
      else normalize_stack allowAboveRoot r (seg :: stack)
  end.

Definition normalizeString (p : jsstring) (allowAboveRoot : bool) : jsstring :=
  join_segs (rev (normalize_stack allowAboveRoot (split p) [])).

Definition isAbsolute (p : jsstring) : bool :=
  match p with
  | c :: _ => c =? slash
  | [] => false
  end.

Definition hasTrailingSep (p : jsstring) : bool :=
  match rev p with
  | c :: _ => c =? slash
  | [] => false
  end.

(** [path.normalize(p)] *)
Definition normalize (p : jsstring) : jsstring :=
  match p with
  | [] => [dot]
  | _ =>
      let q := normalizeString p (negb (isAbsolute p)) in
      match q with
      | [] => if isAbsolute p then [slash]
              else if hasTrailingSep p then [dot; slash] else [dot]
      | _ =>
          let q' := if hasTrailingSep p then q ++ [slash] else q in
          if isAbsolute p then slash :: q' else q'
      end
  end.

(** [path.join(...parts)]: the non-empty parts joined by a separator,
    then normalised. *)
Fixpoint join_parts (parts : list jsstring) : jsstring :=
  match parts with
  | [] => []
  | [] :: r => join_parts r
  | x :: r =>
      match join_parts r with
      | [] => x
      | y => x ++ slash :: y
      end
  end.

Definition joinl (parts : list jsstring) : jsstring :=
  match join_parts parts with
  | [] => [dot]
  | joined => normalize joined
  end.

Definition join (a b : jsstring) : jsstring := joinl [a; b].

(** [path.resolve(p)], with [cwd] the working directory of the process
    (an absolute path). *)
Definition resolve (cwd p : jsstring) : jsstring :=
  let full :=
    if isAbsolute p then p
    else match p with
         | [] => cwd
         | _ => cwd ++ slash :: p
         end in
  if isAbsolute full then slash :: normalizeString full false
  else match normalizeString full true with
       | [] => [dot]
       | q => q
       end.

(** Strips trailing separators (but keeps a lone first character). *)
Fixpoint strip_trailing_rev (r : jsstring) : jsstring :=
  match r with
  | c :: r' => if c =? slash then strip_trailing_rev r' else r
  | [] => []
  end.

Fixpoint drop_segment_rev (r : jsstring) : jsstring :=
  match r with
  | c :: r' => if c =? slash then r else drop_segment_rev r'
  | [] => []
  end.

Fixpoint take_segment_rev (r : jsstring) : jsstring :=
  match r with
  | c :: r' => if c =? slash then [] else c :: take_segment_rev r'
  | [] => []
  end.

(** [path.dirname(p)] *)
Definition dirname (p : jsstring) : jsstring :=
  match p with
  | [] => [dot]
  | c0 :: rest =>
      (* the scan runs over the indices [length-1 .. 1] *)
      let body := strip_trailing_rev (rev rest) in
      let upto := drop_segment_rev body in
      match upto with
      | [] => if c0 =? slash then [slash] else [dot]
      | _ :: before =>
          match before with
          | [] => if c0 =? slash then [slash; slash] else [c0]
          | _ => c0 :: rev before
          end
      end
  end.

(** [path.basename(p)] *)
Definition basename (p : jsstring) : jsstring :=
  rev (take_segment_rev (strip_trailing_rev (rev p))).

End Path.

(* ===================================================================== *)
(** * Text encodings of the host: UTF-8 and base64 *)
(* ===================================================================== *)

Module Encoding.

Definition between (lo x hi : N) : bool := (lo <=? x) && (x <=? hi).

Definition REPLACEMENT : N := 0xFFFD.

(** [Buffer.from(s, 'utf8')]: surrogate pairs become one four-byte
    sequence, a lone surrogate becomes the replacement character. *)
Definition utf8_of_codepoint (cp : N) : list N :=
  if cp <? 0x80 then [cp]
  else if cp <? 0x800 then
    [N.lor 0xC0 (N.shiftr cp 6); N.lor 0x80 (N.land cp 0x3F)]
  else if cp <? 0x10000 then
    [N.lor 0xE0 (N.shiftr cp 12);
     N.lor 0x80 (N.land (N.shiftr cp 6) 0x3F);
     N.lor 0x80 (N.land cp 0x3F)]
  else
    [N.lor 0xF0 (N.shiftr cp 18);
     N.lor 0x80 (N.land (N.shiftr cp 12) 0x3F);
     N.lor 0x80 (N.land (N.shiftr cp 6) 0x3F);
     N.lor 0x80 (N.land cp 0x3F)].

Fixpoint utf8_encode (s : jsstring) : list N :=
  match s with
  | [] => []
  | c :: r =>
      if between 0xD800 c 0xDBFF then
        match r with
        | d :: r' =>
            if between 0xDC00 d 0xDFFF
            then utf8_of_codepoint
                   (0x10000 + N.shiftl (c - 0xD800) 10 + (d - 0xDC00))
                 ++ utf8_encode r'
            else utf8_of_codepoint REPLACEMENT ++ utf8_encode r
        | [] => utf8_of_codepoint REPLACEMENT
        end
      else if between 0xDC00 c 0xDFFF
      then utf8_of_codepoint REPLACEMENT ++ utf8_encode r
      else utf8_of_codepoint c ++ utf8_encode r
  end.

(** [Buffer.byteLength(s)] with the default encoding. *)
Definition byteLength (s : jsstring) : Z := Z.of_nat (length (utf8_encode s)).

(** The code units of a decoded code point. *)
Definition units_of_codepoint (cp : N) : jsstring :=
  if cp <? 0x10000 then [cp]
  else [0xD800 + N.shiftr (cp - 0x10000) 10;
        0xDC00 + N.land (cp - 0x10000) 0x3FF].

Definition cont (b : N) : N := N.land b 0x3F.

(** UTF-8 decoding with replacement: an ill-formed sequence gives one
    replacement character and decoding resumes at the offending byte. *)
Fixpoint utf8_decode (bs : list N) : jsstring :=
  match bs with
  | [] => []
  | b :: r =>
      if b <? 0x80 then b :: utf8_decode r
      else if between 0xC2 b 0xDF then
        match r with
        | b1 :: r1 =>
            if between 0x80 b1 0xBF
            then (N.shiftl (N.land b 0x1F) 6 + cont b1) :: utf8_decode r1
            else REPLACEMENT :: utf8_decode r
        | [] => [REPLACEMENT]
        end
      else if between 0xE0 b 0xEF then
        match r with
        | b1 :: r1 =>
            if between (if b =? 0xE0 then 0xA0 else 0x80) b1
                       (if b =? 0xED then 0x9F else 0xBF)
            then match r1 with
                 | b2 :: r2 =>
                     if between 0x80 b2 0xBF
                     then (N.shiftl (N.land b 0x0F) 12
                           + N.shiftl (cont b1) 6 + cont b2) :: utf8_decode r2
                     else REPLACEMENT :: utf8_decode r1
                 | [] => [REPLACEMENT]
                 end
            else REPLACEMENT :: utf8_decode r
        | [] => [REPLACEMENT]
        end
      else if between 0xF0 b 0xF4 then
        match r with
        | b1 :: r1 =>
            if between (if b =? 0xF0 then 0x90 else 0x80) b1
                       (if b =? 0xF4 then 0x8F else 0xBF)
            then match r1 with
                 | b2 :: r2 =>
                     if between 0x80 b2 0xBF
                     then match r2 with
                          | b3 :: r3 =>
                              if between 0x80 b3 0xBF
                              then units_of_codepoint
                                     (N.shiftl (N.land b 0x07) 18
                                      + N.shiftl (cont b1) 12
                                      + N.shiftl (cont b2) 6 + cont b3)
                                   ++ utf8_decode r3
                              else REPLACEMENT :: utf8_decode r2
                          | [] => [REPLACEMENT]
                          end
                     else REPLACEMENT :: utf8_decode r1
                 | [] => [REPLACEMENT]
                 end
            else REPLACEMENT :: utf8_decode r
        | [] => [REPLACEMENT]
        end
      else REPLACEMENT :: utf8_decode r
  end.

(** [buf.toString()]: decoding that keeps a byte-order mark. *)
Definition bufferToString (bs : list N) : jsstring := utf8_decode bs.

(** [new TextDecoder('utf-8').decode(bs)]: a leading byte-order mark is
    not part of the output. *)
Definition textDecode (bs : list N) : jsstring :=
  match utf8_decode bs with
  | 0xFEFF :: r => r
  | s => s
  end.

(** The value of a base64 digit, of the standard or the URL-safe
    alphabet. *)
Definition unbase64 (c : N) : option N :=
  if between 65 c 90 then Some (c - 65)
  else if between 97 c 122 then Some (c - 97 + 26)
  else if between 48 c 57 then Some (c - 48 + 52)
  else if (c =? 43) || (c =? 45) then Some 62
  else if (c =? 47) || (c =? 95) then Some 63
  else None.

(** The digits read by the decoder: it stops at the first [=] and skips
    every other character outside the alphabet. *)
Fixpoint base64_digits (s : jsstring) : list N :=
  match s with
  | [] => []
  | c :: r =>
      match unbase64 c with
      | Some v => v :: base64_digits r
      | None => if c =? 61 then [] else base64_digits r
      end
  end.

Fixpoint base64_groups (ds : list N) : list N :=
  match ds with
  | a :: b :: c :: d :: r =>
      [N.lor (N.shiftl a 2) (N.shiftr b 4);
       N.lor (N.shiftl (N.land b 0xF) 4) (N.shiftr c 2);
       N.lor (N.shiftl (N.land c 0x3) 6) d] ++ base64_groups r
  | [a; b; c] =>
      [N.lor (N.shiftl a 2) (N.shiftr b 4);
       N.lor (N.shiftl (N.land b 0xF) 4) (N.shiftr c 2)]
  | [a; b] => [N.lor (N.shiftl a 2) (N.shiftr b 4)]
  | _ => []
  end.

(** [Buffer.from(s, 'base64')] *)
Definition base64_decode (s : jsstring) : list N :=
  base64_groups (base64_digits s).

End Encoding.

(* ===================================================================== *)
(** * src/utils/security.js *)
(* ===================================================================== *)

Module Security.

(** What the module reads from its host: the directory that holds
    [security.js] itself ([path.dirname(fileURLToPath(import.meta.url))])
    and the working directory of the process, which [path.resolve] uses
    for relative paths. *)
Record Host := {
  module_dir : jsstring;
  cwd : jsstring
}.

(** A regular expression of [SUSPICIOUS_PATTERNS]: a literal, matched
    anywhere in the subject, with or without the [i] flag. *)
Inductive pattern :=
| Lit (p : jsstring)
| LitI (p : jsstring).

Definition test (pat : pattern) (s : jsstring) : bool :=
  match pat with
  | Lit p => includes s p
  | LitI p => includes_i s p
  end.

Definition MAX_FILE_SIZE : Z := 100 * 1024 * 1024.
Definition MAX_PATH_LENGTH : nat := 4096.
Definition SUSPICIOUS_PATTERNS : list pattern :=
  [ Lit (js "..");              (* /\.\./           Directory traversal *)
    LitI (js "<script");        (* /<script/i       Script injection *)
    LitI (js "javascript:");    (* /javascript:/i   JavaScript protocol *)
    LitI (js "data:text/html")  (* /data:text\/html/i  Data URI *)
  ].

Definition getAppBaseDir (h : Host) : jsstring :=
  Path.join (module_dir h)
    (if endsWith (module_dir h)
          (Path.joinl [js "resources"; js "app.asar"; js "src"; js "utils"])
     then js "/../../../../"
     else js "/../../").

Definition is_control (c : N) : bool := (c <=? 0x1f) || (c =? 0x7f).

Definition normalizePath (inputPath : jsstring) : jsstring :=
  let normalized := List.filter (fun c => negb (is_control c)) inputPath in
  Path.normalize normalized.

Definition isValidPath (h : Host) (filePath : jsstring)
    (allowedPrefixes : list jsstring) : bool :=
  if (MAX_PATH_LENGTH <? length filePath)%nat then false
  else
    let normalized := normalizePath filePath in
    let resolved := Path.resolve (cwd h) normalized in
    if existsb (fun pattern => test pattern resolved) SUSPICIOUS_PATTERNS
    then false
    else if existsb
              (fun prefix =>
                 let resolvedPrefix := Path.resolve (cwd h) prefix in
                 startsWith resolved resolvedPrefix)
              allowedPrefixes
    then true
    else false.

Definition isOutsideAppDir (h : Host) (filePath : jsstring) : bool :=
  let appBaseDir := getAppBaseDir h in
  let resolved := Path.resolve (cwd h) (normalizePath filePath) in
  let resolvedAppBase := Path.resolve (cwd h) appBaseDir in
  negb (startsWith resolved resolvedAppBase).

(** The three global replacements of [sanitizeFilename]. *)
Definition is_separator (c : N) : bool := (c =? 47) || (c =? 92).

Definition is_dangerous (c : N) : bool :=
  (c =? 60) || (c =? 62) || (c =? 58) || (c =? 34)
  || (c =? 124) || (c =? 63) || (c =? 42).

(** [s.replace(/\s+/g, ' ')]: [in_run] says that the previous character
    belonged to the run of white space already replaced. *)
Fixpoint collapse_spaces (in_run : bool) (s : jsstring) : jsstring :=
  match s with
  | [] => []
  | c :: r =>
      if is_space c
      then if in_run then collapse_spaces true r
           else 32 :: collapse_spaces true r
      else c :: collapse_spaces false r
  end.

(** [/^\.*$/.test(s)] *)
Definition only_dots (s : jsstring) : bool := forallb (fun c => c =? 46) s.

Definition sanitizeFilename (filename : jsstring) : jsstring :=
  let sanitized :=
    trim
      (collapse_spaces false
         (List.filter (fun c => negb (is_dangerous c))
            (List.filter (fun c => negb (is_separator c)) filename))) in
  let sanitized :=
    if (255 <? length sanitized)%nat then substring0 255 sanitized
    else sanitized in
  let sanitized :=
    if match sanitized with [] => true | _ => false end || only_dots sanitized
    then js "unnamed"
    else sanitized in
  sanitized.

(** [validateFileContent], for string content and the default encoding
    (every caller in the file store passes a string and no encoding). *)
Definition validateFileContent (content : jsstring) : bool :=
  let size := Encoding.byteLength content in
  if (MAX_FILE_SIZE <? size)%Z then false
  else if existsb (fun pattern => test pattern content) SUSPICIOUS_PATTERNS
  then false
  else true.

(** The [RateLimiter] class: [calls] is its [Map<string, number[]>]. *)
Record RateLimiter := {
  calls : gmap (list N) (list Z);
  maxCalls : nat;
  windowMs : Z
}.

Definition newRateLimiter (maxCalls : nat) (windowMs : Z) : RateLimiter :=
  {| calls := ∅; maxCalls := maxCalls; windowMs := windowMs |}.

(** [canProceed(key)], with [now] the value of [Date.now()]. *)
Definition canProceed (rl : RateLimiter) (key : jsstring) (now : Z)
    : bool * RateLimiter :=
  let calls_ := default [] (calls rl !! key) in
  let recentCalls := List.filter (fun timestamp => (now - timestamp <? windowMs rl)%Z) calls_ in
  if (maxCalls rl <=? length recentCalls)%nat then (false, rl)
  else
    (true, {| calls := <[key := recentCalls ++ [now]]> (calls rl);
              maxCalls := maxCalls rl; windowMs := windowMs rl |}).

Definition reset (rl : RateLimiter) (key : jsstring) : RateLimiter :=
  {| calls := delete key (calls rl);
     maxCalls := maxCalls rl; windowMs := windowMs rl |}.

End Security.

(* ===================================================================== *)
(** * src/services/FileService.js: the content sniffer *)
(* ===================================================================== *)

Module Sniffer.

(** The first argument of [checkFileContent]. *)
Inductive body :=
| BNull                       (* [null] or [undefined] *)
| BString (s : jsstring)      (* a string *)
| BBytes (b : list N).        (* a [Buffer] or [Uint8Array] *)

(** [enc === 'base64'] *)
Definition is_base64 (enc : option jsstring) : bool :=
  match enc with
  | Some e => if decide (e = js "base64") then true else false
  | None => false
  end.

(** The pair [(c, cc)]: the characters of [head] and the bytes of
    [headBinary]. *)
Definition heads (b : body) (enc : option jsstring)
    : option (jsstring * list N) :=
  match b with
  | BNull => None
  | BString s =>
      if is_base64 enc then
        let headBinary := Encoding.base64_decode (substring0 22 s) in
        let head := Encoding.bufferToString headBinary in
        Some (head, headBinary)
      else
        let head := substring0 16 s in
        let headBinary := Encoding.utf8_encode head in
        Some (head, headBinary)
  | BBytes bs =>
      let head := Encoding.textDecode (firstn 16 bs) in
      let headBinary := firstn 16 bs in
      Some (head, headBinary)
  end.

(** [c[i] === 'x'] and [cc[i] === 0x..]; an index past the end reads
    [undefined], which equals nothing. *)
Definition at_is (l : list N) (i : nat) (v : N) : bool :=
  match nth_error l i with
  | Some x => x =? v
  | None => false
  end.

Notation "l @ i == a" := (at_is l i (ch a))
  (at level 35, i at level 9, a at level 9, no associativity).
Notation "l # i == v" := (at_is l i v)
  (at level 35, i at level 9, v at level 9, no associativity).

Local Open Scope char_scope.

Definition checkFileContent (b : body) (enc : option jsstring) : bool :=
  match heads b enc with
  | None => false
  | Some (c, cc) =>
      (* XML/HTML files *)
      if c@0 == "<" &&
         ((* HTML *)
          (c@1 == "!" ||
           (c@1 == "h" && c@2 == "t" && c@3 == "m" && c@4 == "l") ||
           (c@1 == "H" && c@2 == "T" && c@3 == "M" && c@4 == "L") ||
           (c@1 == "b" && c@2 == "o" && c@3 == "d" && c@4 == "y") ||
           (c@1 == "B" && c@2 == "O" && c@3 == "D" && c@4 == "Y"))
          (* XML declaration *)
          || (c@1 == "?" && c@2 == "x" && c@3 == "m" && c@4 == "l")
          (* SVG *)
          || (c@1 == "s" && c@2 == "v" && c@3 == "g")
          (* mxGraphModel, mxfile, mxlibrary *)
          || (c@1 == "m" && c@2 == "x")
          (* img and iframe tags *)
          || ((c@1 == "i" && c@2 == "m" && c@3 == "g") ||
              (c@1 == "i" && c@2 == "f" && c@3 == "r" && c@4 == "a"
               && c@5 == "m" && c@6 == "e")))
      then true
      (* UTF-8 BOM *)
      else if (cc#0 == 0xef && cc#1 == 0xbb && cc#2 == 0xbf)
              && (c@3 == "<" && c@4 == "?" && c@5 == "x")
      then true
      (* UTF-16 BE BOM *)
      else if (cc#0 == 0xfe && cc#1 == 0xff)
              && (cc#2 == 0 && c@3 == "<" && cc#4 == 0 && c@5 == "?"
                  && cc#6 == 0 && c@7 == "x")
      then true
      (* UTF-16 LE BOM *)
      else if (cc#0 == 0xff && cc#1 == 0xfe)
              && (c@2 == "<" && cc#3 == 0 && c@4 == "?" && cc#5 == 0)
      then true
      (* UTF-32 BE BOM *)
      else if cc#0 == 0x00 && cc#1 == 0x00 && cc#2 == 0xfe && cc#3 == 0xff
      then true
      (* UTF-32 LE BOM *)
      else if cc#0 == 0xff && cc#1 == 0xfe && cc#2 == 0x00 && cc#3 == 0x00
      then true
      (* PDF *)
      else if cc#0 == 0x25 && cc#1 == 0x50 && cc#2 == 0x44 && cc#3 == 0x46
      then true
      (* PNG *)
      else if (cc#0 == 0x89 && cc#1 == 0x50 && cc#2 == 0x4e && cc#3 == 0x47)
              || (cc#0 == 0xc2 && cc#1 == 0x89 && cc#2 == 0x50 && cc#3 == 0x4e)
      then true
      (* JPEG *)
      else if (cc#0 == 0xff && cc#1 == 0xd8 && cc#2 == 0xff)
              && (cc#3 == 0xe0 || cc#3 == 0xee || cc#3 == 0xe1)
      then true
      (* WebP *)
      else if (cc#0 == 0x52 && cc#1 == 0x49 && cc#2 == 0x46 && cc#3 == 0x46)
              && (cc#8 == 0x57 && cc#9 == 0x45 && cc#10 == 0x42 && cc#11 == 0x50)
      then true
      (* ZIP-based formats (VSDX, etc.) *)
      else if (cc#0 == 0x50 && cc#1 == 0x4b && cc#2 == 0x03)
              && (cc#3 == 0x04 || cc#3 == 0x06)
      then true
      (* JSON *)
      else if c@0 == "{" || c@0 == "["
      then true
      else false
  end.

End Sniffer.

(* ===================================================================== *)
(** * Sequential effects: state and exceptions *)
(* ===================================================================== *)

Module Eff.

(** The outcome of a call: it returns or it throws. *)
Inductive Res (E A : Type) :=
| Ok (a : A)
| Throw (e : E).
Arguments Ok {E A} a.
Arguments Throw {E A} e.

(** A computation over a state [S] that may throw an [E]. *)
Definition M (S E A : Type) : Type := S -> Res E A * S.

Section Ops.
Context {S E : Type}.

Definition ret {A} (a : A) : M S E A := fun w => (Ok a, w).

Definition throw {A} (e : E) : M S E A := fun w => (Throw e, w).

Definition bind {A B} (m : M S E A) (k : A -> M S E B) : M S E B :=
  fun w =>
    match m w with
    | (Ok a, w') => k a w'
    | (Throw e, w') => (Throw e, w')
    end.

(** [try { m } catch (e) { .. }] seen from the inside: runs [m] and
    hands its outcome to the continuation, without throwing. *)
Definition attempt {A} (m : M S E A) : M S E (Res E A) :=
  fun w => let '(r, w') := m w in (Ok r, w').

(** [try { m } finally { f }] *)
Definition finally {A} (m : M S E A) (f : M S E unit) : M S E A :=
  fun w =>
    let '(r, w1) := m w in
    match f w1 with
    | (Ok _, w2) => (r, w2)
    | (Throw e, w2) => (Throw e, w2)
    end.

Definition get : M S E S := fun w => (Ok w, w).

Definition modify (f : S -> S) : M S E unit := fun w => (Ok tt, f w).
End Ops.

Declare Scope eff_scope.
Delimit Scope eff_scope with eff.
Notation "x <- c ;; k" := (bind c (fun x => k))
  (at level 100, c at next level, k at level 200, right associativity)
  : eff_scope.
Notation "c ;; k" := (bind c (fun _ => k))
  (at level 100, k at level 200, right associativity) : eff_scope.

End Eff.
Export Eff.

(* ===================================================================== *)
(** * The host file system, as [fs] and [fs.promises] present it *)
(* ===================================================================== *)

Module Host.

(** The fields of [fs.Stats] that the file store reads. *)
Record Stats := {
  mtimeMs : Z;
  ctimeMs : Z;
  size : Z
}.

(** A regular file.  Its content is kept as the string that
    [readFile(path, enc)] returns for it: transcoding between the string
    and the bytes on the medium is not modelled. *)
Record File := {
  content : jsstring;
  stats : Stats
}.

(** The calls that the file store makes and that leave a mark: they are
    logged in program order.  [existsSync] and [stat] only observe and
    are not logged. *)
Inductive Event :=
| EvOpen (path : jsstring)                       (* open(path, O_SYNC|O_CREAT|O_WRONLY|O_TRUNC) *)
| EvWrite (path : jsstring) (data : jsstring)    (* writeFile(fh, data, enc) *)
| EvSync (path : jsstring)                       (* fh.sync() *)
| EvClose (path : jsstring)                      (* fh.close() *)
| EvRead (path : jsstring) (data : jsstring)     (* readFile(path, enc) and its result *)
| EvUnlink (path : jsstring)
| EvRename (from to : jsstring)
| EvSpawn (command : jsstring) (args : list jsstring)
| EvSleep (ms : Z).                              (* setTimeout(resolve, ms) *)

(** The state of the host.
    - [readonly]: the paths that cannot be opened for writing.
    - [medium]: what the coming writes leave behind, one entry per call
      of [writeFile(fh, ..)]: [None] (or an exhausted script) stores the
      data as given, [Some d] stores [d] instead.  This is the fault that
      write verification exists to detect.
    - [trace]: the log of calls, the most recent first. *)
Record World := {
  files : gmap (list N) File;
  readonly : gset (list N);
  medium : list (option jsstring);
  now : Z;
  trace : list Event
}.

Definition log (e : Event) (w : World) : World :=
  {| files := files w; readonly := readonly w; medium := medium w;
     now := now w; trace := e :: trace w |}.

Definition set_files (fs : gmap (list N) File) (w : World) : World :=
  {| files := fs; readonly := readonly w; medium := medium w;
     now := now w; trace := trace w |}.

(** The error codes of [ErrorCodes] in [src/utils/error-handler.js]. *)
Inductive ErrorCode :=
| FILE_NOT_FOUND | FILE_ACCESS_DENIED | FILE_TOO_LARGE | FILE_INVALID
| FILE_CONFLICT | PATH_TRAVERSAL | SECURITY_VIOLATION | EXPORT_FAILED
| NETWORK_ERROR | TIMEOUT | UNKNOWN_ERROR.

(** What can be thrown: a [FileError] of the application, or an error of
    the platform with its [code] ([ENOENT], [EACCES]). *)
Inductive Error :=
| FileError (message : jsstring) (code : ErrorCode) (filePath : jsstring)
| SystemError (code : jsstring) (path : jsstring).

(** Computations of the host: state [World], exceptions [Error]. *)
Abbreviation M := (Eff.M World Error).
Abbreviation Outcome := (Eff.Res Error).
Local Open Scope eff_scope.

(** [fs.existsSync(p)] *)
Definition existsSync (p : jsstring) : M bool :=
  fun w => (Ok (bool_decide (is_Some (files w !! p))), w).

(** [fsProm.stat(p)], [fsProm.lstat(p)], [fs.statSync(p)] *)
Definition stat (p : jsstring) : M Stats :=
  fun w =>
    match files w !! p with
    | Some f => (Ok (stats f), w)
    | None => (Throw (SystemError (js "ENOENT") p), w)
    end.

(** [fsProm.readFile(p, enc)] *)
Definition readFile (p : jsstring) : M jsstring :=
  fun w =>
    match files w !! p with
    | Some f => (Ok (content f), log (EvRead p (content f)) w)
    | None => (Throw (SystemError (js "ENOENT") p), w)
    end.

(** The file that a write of [data] at time [t] leaves. *)
Definition written (data : jsstring) (t : Z) : File :=
  {| content := data;
     stats := {| mtimeMs := t; ctimeMs := t;
                 size := Encoding.byteLength data |} |}.

(** [fsProm.open(p, O_SYNC | O_CREAT | O_WRONLY | O_TRUNC)]: creates the
    file or empties it; the handle is the path. *)
Definition open (p : jsstring) : M jsstring :=
  fun w =>
    if decide (p ∈ readonly w)
    then (Throw (SystemError (js "EACCES") p), w)
    else (Ok p, log (EvOpen p) (set_files (<[p := written [] (now w)]> (files w)) w)).

(** [fsProm.writeFile(fh, data, enc)] *)
Definition writeFh (fh : jsstring) (data : jsstring) : M unit :=
  fun w =>
    let landed := match medium w with
                  | Some d :: _ => d
                  | _ => data
                  end in
    (Ok tt,
     {| files := <[fh := written landed (now w)]> (files w);
        readonly := readonly w;
        medium := tl (medium w);
        now := now w;
        trace := EvWrite fh data :: trace w |}).

(** [fh.sync()] *)
Definition sync (fh : jsstring) : M unit :=
  fun w => (Ok tt, log (EvSync fh) w).

(** [fh.close()] *)
Definition close (fh : jsstring) : M unit :=
  fun w => (Ok tt, log (EvClose fh) w).

(** [fs.unlink(p, () => {})]: the outcome is ignored. *)
Definition unlink_ignore (p : jsstring) : M unit :=
  fun w => (Ok tt, log (EvUnlink p) (set_files (delete p (files w)) w)).

(** [fsProm.rename(a, b)] *)
Definition rename (a b : jsstring) : M unit :=
  fun w =>
    match files w !! a with
    | None => (Throw (SystemError (js "ENOENT") a), w)
    | Some f =>
        if decide (b ∈ readonly w)
        then (Throw (SystemError (js "EACCES") b), w)
        else (Ok tt, log (EvRename a b)
                       (set_files (<[b := f]> (delete a (files w))) w))
    end.

(** [spawn(command, args)], with its error listener. *)
Definition spawn (command : jsstring) (args : list jsstring) : M unit :=
  fun w => (Ok tt, log (EvSpawn command args) w).

(** [await new Promise(resolve => setTimeout(resolve, ms))] *)
Definition sleep (ms : Z) : M unit :=
  fun w =>
    (Ok tt,
     {| files := files w; readonly := readonly w; medium := medium w;
        now := (now w + ms)%Z; trace := EvSleep ms :: trace w |}).

End Host.

(* ===================================================================== *)
(** * src/services/FileService.js: the persistent file store *)
(* ===================================================================== *)

Module FileService.
Import Host.
Local Open Scope eff_scope.

(** File prefixes and extensions *)
Definition DRAFT_PREFEX : jsstring := js ".$".
Definition OLD_DRAFT_PREFEX : jsstring := js "~$".
Definition DRAFT_EXT : jsstring := js ".dtmp".
Definition BKP_PREFEX : jsstring := js ".$".
Definition OLD_BKP_PREFEX : jsstring := js "~$".
Definition BKP_EXT : jsstring := js ".bkp".

(** What the module takes from its surroundings: the host of
    [security.js] and [process.platform === 'win32']. *)
Record Env := {
  host : Security.Host;
  isWin : bool
}.

(** A file handle of the caller: [{path, encoding?}]. *)
Record FileObject := {
  path : jsstring;
  encoding : option jsstring
}.

(** [a || b] on strings that may be [undefined]: the empty string is
    falsy as well. *)
Definition or_else (a : option jsstring) (b : jsstring) : jsstring :=
  match a with
  | Some (c :: s) => c :: s
  | _ => b
  end.

(** [isConflict(origStat, stat)] *)
Definition isConflict (origStat stat : option Stats) : bool :=
  match stat, origStat with
  | Some stat, Some origStat =>
      negb (mtimeMs stat =? mtimeMs origStat)%Z
  | _, _ => false
  end.

(** [validateFileSize(filePath)] of [security.js], with the default
    [maxSize]; it reads the file system, so it lives here. *)
Definition validateFileSize (filePath : jsstring) : M bool :=
  ex <- existsSync filePath ;;
  if negb ex then ret true (* New file *)
  else
    r <- attempt (stat filePath) ;;
    match r with
    | Ok stats =>
        if (Security.MAX_FILE_SIZE <? size stats)%Z then ret false
        else ret true
    | Throw _ => ret false
    end.

(** ** Drafts *)

Record Draft := {
  data : jsstring;
  created : Z;
  modified : Z;
  draft_path : jsstring
}.

(** The sibling [<dir>/<prefix><basename><uniquePart>.dtmp]. *)
Definition draftSibling (prefix filePath uniquePart : jsstring) : jsstring :=
  Path.join (Path.dirname filePath)
    (prefix ++ Path.basename filePath ++ uniquePart ++ DRAFT_EXT).

(** The first [do .. while] loop of [getFileDrafts], one iteration per
    unit of [fuel]; [None] when the fuel runs out. *)
Fixpoint findDrafts (fuel : nat) (filePath : jsstring)
    (draftFileName : option jsstring) (counter : N) (uniquePart : jsstring)
    (draftsPaths : list jsstring) : M (option (list jsstring)) :=
  match fuel with
  | O => ret None
  | S fuel' =>
      let draftsPaths :=
        match draftFileName with
        | Some d => draftsPaths ++ [d]
        | None => draftsPaths
        end in
      let draftFileName := draftSibling DRAFT_PREFEX filePath uniquePart in
      let uniquePart := js "_" ++ num_to_js counter in
      let counter := counter + 1 in
      ex <- existsSync draftFileName ;;
      if ex
      then findDrafts fuel' filePath (Some draftFileName) counter uniquePart
             draftsPaths
      else ret (Some draftsPaths)
  end.

(** The second loop: legacy drafts are renamed to the current scheme. *)
Fixpoint migrateDrafts (fuel : nat) (filePath : jsstring)
    (counter : N) (uniquePart : jsstring)
    (draftsPaths : list jsstring) : M (option (list jsstring)) :=
  match fuel with
  | O => ret None
  | S fuel' =>
      let oldDraftFileName := draftSibling OLD_DRAFT_PREFEX filePath uniquePart in
      oldDraftExists <- existsSync oldDraftFileName ;;
      draftsPaths <-
        (if oldDraftExists then
           let newDraftFileName := draftSibling DRAFT_PREFEX filePath uniquePart in
           r <- attempt (rename oldDraftFileName newDraftFileName) ;;
           match r with
           | Ok _ => ret (draftsPaths ++ [newDraftFileName])
           | Throw _ => ret draftsPaths (* log.warn *)
           end
         else ret draftsPaths) ;;
      let uniquePart := js "_" ++ num_to_js counter in
      let counter := counter + 1 in
      if oldDraftExists
      then migrateDrafts fuel' filePath counter uniquePart draftsPaths
      else ret (Some draftsPaths)
  end.

(** The third loop, [for (let i = 1; i < draftsPaths.length; i++)], given
    the entries from index [i] on. *)
Fixpoint readDrafts (paths : list jsstring) (drafts : list Draft)
    : M (list Draft) :=
  match paths with
  | [] => ret drafts
  | p :: rest =>
      r <- attempt (st <- stat p ;; d <- readFile p ;; ret (st, d)) ;;
      match r with
      | Ok (st, d) =>
          readDrafts rest
            (drafts ++ [{| data := d; created := ctimeMs st;
                           modified := mtimeMs st; draft_path := p |}])
      | Throw _ => readDrafts rest drafts (* log.debug *)
      end
  end.

(** [getFileDrafts(fileObject)]; [None] when [fuel] iterations did not
    finish one of the two [do .. while] loops. *)
Definition getFileDrafts (fuel : nat) (fileObject : FileObject)
    : M (option (list Draft)) :=
  let filePath := path fileObject in
  (* Find new format drafts *)
  found <- findDrafts fuel filePath None 1 [] [] ;;
  match found with
  | None => ret None
  | Some draftsPaths =>
      (* Migrate old format drafts *)
      migrated <- migrateDrafts fuel filePath 1 [] draftsPaths ;;
      match migrated with
      | None => ret None
      | Some draftsPaths =>
          (* Read draft contents *)
          drafts <- readDrafts (skipn 1 draftsPaths) [] ;;
          ret (Some drafts)
      end
  end.

(** ** Saving *)

(** The closure [writeFile] of [saveFile], entered with the current
    value of [retryCount]. *)
Equations? writeFile_closure (path data oldBkpPath : jsstring)
    (backupCreated : bool) (retryCount : nat) (w : World)
    : Outcome Stats * World by wf (3 - retryCount)%nat lt :=
  writeFile_closure path data oldBkpPath backupCreated retryCount w :=
    (opened <- attempt (open path) ;;
     match opened with
     | Throw e => throw e
     | Ok fh =>
         (* Open file with sync flags for durability *)
         finally (writeFh fh data ;; sync fh) (close fh)
     end ;;
     (* Verify write by reading back *)
     stat2 <- stat path ;;
     writtenData <- readFile path ;;
     if decide (data <> writtenData) then
       let retryCount' := S retryCount in
       match lt_dec retryCount' 3 with
       | left _ =>
           sleep (100 * Z.of_nat retryCount') ;;
           (fun w' =>
              writeFile_closure path data oldBkpPath backupCreated
                retryCount' w')
       | right _ =>
           throw (FileError (js "Write verification failed after retries")
                    FILE_INVALID path)
       end
     else
       (* Cleanup backup on success *)
       (if backupCreated then
          ex <- existsSync oldBkpPath ;;
          if ex then unlink_ignore oldBkpPath else ret tt
        else ret tt) ;;
       ret stat2) w.
Proof. lia. Qed.

(** The [try .. catch .. finally] block of [doSaveFile] that creates the
    backup; its result is the value of [backupCreated] afterwards. *)
Definition createBackup (env : Env) (path bkpPath : jsstring) : M bool :=
  r <- attempt (readFile path) ;;
  match r with
  | Throw _ => ret false (* log.debug('Backup creation failed') *)
  | Ok fileContent =>
      opened <- attempt (open bkpPath) ;;
      match opened with
      | Throw _ => ret false
      | Ok bkpFh =>
          finally
            (r <- attempt (writeFh bkpFh fileContent ;; sync bkpFh) ;;
             match r with
             | Throw _ => ret false
             | Ok _ =>
                 (* backupCreated = true; Set hidden on Windows *)
                 attempt (if isWin env
                          then spawn (js "attrib") [js "+h"; bkpPath]
                          else ret tt) ;;
                 ret true
             end)
            (close bkpFh)
      end
  end.

(** The closure [doSaveFile(isNew)] of [saveFile]. *)
Definition doSaveFile (env : Env) (path data bkpPath oldBkpPath : jsstring)
    (enableStoreBkp : bool) (isNew : bool) : M Stats :=
  (* Create backup for existing files *)
  backupCreated <-
    (if enableStoreBkp && negb isNew
     then createBackup env path bkpPath
     else ret false) ;;
  writeFile_closure path data oldBkpPath backupCreated 0.

(** [saveFile(fileObject, data, origStat, overwrite, defEnc,
    enableStoreBkp)] *)
Definition saveFile (env : Env) (fileObject : FileObject) (data : jsstring)
    (origStat : option Stats) (overwrite : bool) (defEnc : option jsstring)
    (enableStoreBkp : bool) : M Stats :=
  (* Validate path *)
  if negb (Security.isOutsideAppDir (host env) (path fileObject)) then
    throw (FileError (js "Cannot save to application directory")
             SECURITY_VIOLATION (path fileObject))
  (* Validate data *)
  else if negb (Sniffer.checkFileContent (Sniffer.BString data) None)
          || negb (Security.validateFileContent data) then
    throw (FileError (js "Invalid file data") FILE_INVALID (path fileObject))
  else
    (* Validate size *)
    sizeOk <- validateFileSize (path fileObject) ;;
    if negb sizeOk then
      throw (FileError (js "File too large") FILE_TOO_LARGE (path fileObject))
    else
      let writeEnc := or_else defEnc (or_else (encoding fileObject) (js "utf8")) in
      let bkpPath :=
        Path.join (Path.dirname (path fileObject))
          (BKP_PREFEX ++ Path.basename (path fileObject) ++ BKP_EXT) in
      let oldBkpPath :=
        Path.join (Path.dirname (path fileObject))
          (OLD_BKP_PREFEX ++ Path.basename (path fileObject) ++ BKP_EXT) in
      let doSaveFile :=
        doSaveFile env (path fileObject) data bkpPath oldBkpPath enableStoreBkp in
      (* Check for conflicts *)
      if overwrite then doSaveFile true
      else
        ex <- existsSync (path fileObject) ;;
        stat <- (if ex then st <- stat (path fileObject) ;; ret (Some st)
                 else ret None) ;;
        if match stat with Some _ => true | None => false end
           && isConflict origStat stat then
          throw (FileError (js "File conflict detected") FILE_CONFLICT
                   (path fileObject))
        else
          doSaveFile (match stat with None => true | Some _ => false end).

End FileService.

(* ===================================================================== *)
(** * src/ipc/handlers.js: the boundary dispatcher *)
(* ===================================================================== *)

Module Handlers.
Import Security.
Local Open Scope eff_scope.

Section Dispatcher.

(** [V]: the JavaScript objects that pass through the dispatcher
    untouched (stats, buffers, arrays, windows).  [X]: the state of the
    rest of the main process (files, windows, clipboard, plugins). *)
Context {V X : Type}.

Inductive value :=
| VUndefined
| VNull
| VBool (b : bool)
| VString (s : jsstring)
| VObject (v : V).

(** A thrown [Error]: its [message], and the object itself when it came
    from a service. *)
Record JsError := {
  message : jsstring;
  thrown : option V
}.

(** The request envelope [args]: [action], [reqId] and the
    action-specific fields, read by name. *)
Record Args := {
  action : jsstring;
  reqId : Z;
  fields : gmap (list N) value
}.

(** [args.name]; a missing property reads [undefined]. *)
Definition field (args : Args) (name : string) : value :=
  default VUndefined (fields args !! js name).

(** [event.senderFrame] *)
Record Frame := { url : option jsstring }.
Record IpcEvent := { senderFrame : option Frame }.

(** The part of [IPCConfig] that the request handler uses. *)
Record IPCConfig := { validateSender : option Frame -> bool }.

(** The payload of [event.reply('mainResp', ..)]. *)
Inductive Reply :=
| Success (data : value) (reqId : Z)
    (* {success: true, data, reqId} *)
| Failure (msg : jsstring) (e : option JsError) (reqId : Z).
    (* {error: true, msg, e?, reqId} *)

Definition reply_reqId (r : Reply) : Z :=
  match r with
  | Success _ i => i
  | Failure _ _ i => i
  end.

Definition OpenDialogResult : Type := value.           (* .filePaths *)
Record SaveDialogResult := { canceled : bool; filePath : value }.

Abbreviation Svc := (Eff.M X JsError).

(** The operations that [handlers.js] imports: Electron, [fs] and the
    services of the application.  In [handleAction] each is a call
    that returns or throws. *)
Record Services := {
  Date_now : X -> Z;
  objectToString : V -> jsstring;
  FileService_getAppDataFolder : X -> value * X;
  FileService_saveFile : value -> value -> value -> value -> value -> value -> Svc value;
  FileService_writeFile : value -> value -> value -> Svc value;
  FileService_saveDraft : value -> value -> Svc value;
  FileService_getFileDrafts : value -> Svc value;
  FileService_getDocumentsFolder : Svc value;
  FileService_checkFileExists : value -> Svc value;
  FileService_dirname : value -> Svc value;
  FileService_readFile : value -> value -> Svc value;
  FileService_deleteFile : value -> Svc value;
  FileService_fileStat : value -> Svc value;
  FileService_isFileWritable : value -> Svc value;
  BrowserWindow_getFocusedWindow : Svc value;
  dialog_showOpenDialog : value -> value -> value -> value -> Svc OpenDialogResult;
  dialog_showSaveDialog : value -> value -> value -> Svc SaveDialogResult;
  PluginService_installPlugin : value -> value -> Svc value;
  PluginService_uninstallPlugin : value -> value -> Svc value;
  PluginService_getPluginFile : value -> value -> Svc value;
  PluginService_isPluginsEnabled : Svc value;
  ClipboardService_writeText : value -> Svc value;
  ClipboardService_readText : Svc value;
  ClipboardService_writeImage : value -> Svc value;
  WindowManager_minimizeWindow : Svc value;
  WindowManager_maximizeWindow : Svc value;
  WindowManager_unmaximizeWindow : Svc value;
  WindowManager_closeWindow : Svc value;
  WindowManager_isMaximized : Svc value;
  WindowManager_removeAllListeners : Svc value;
  WindowManager_isFullScreen : Svc value;
  shell_openExternal : value -> Svc value;
  fs_watchFile : value -> value -> Svc value;
  fs_unwatchFile : value -> Svc value;
  app_quit : Svc value
}.

Variable svc : Services.

(** The module-level state that the actions see: the flag
    [dialogOpen] and the rest of the process. *)
Record Main := {
  dialogOpen : bool;
  rest : X
}.

Abbreviation Act := (Eff.M Main JsError).

(** A call into a service. *)
Definition call {A} (m : Svc A) : Act A :=
  fun s =>
    let '(r, x) := m (rest s) in
    (r, {| dialogOpen := dialogOpen s; rest := x |}).

Definition set_dialogOpen (b : bool) : Act unit :=
  modify (fun s => {| dialogOpen := b; rest := rest s |}).

(** [String(v)] *)
Definition toString (v : value) : jsstring :=
  match v with
  | VUndefined => js "undefined"
  | VNull => js "null"
  | VBool true => js "true"
  | VBool false => js "false"
  | VString s => s
  | VObject o => objectToString svc o
  end.

(** [v === 'literal'] *)
Definition is_str (v : value) (lit : string) : bool :=
  match v with
  | VString s => bool_decide (s = js lit)
  | _ => false
  end.

(** [a ?? b] *)
Definition nullish (a b : value) : value :=
  match a with
  | VUndefined | VNull => b
  | _ => a
  end.

Definition handleClipboardAction (method data : value) : Act value :=
  if is_str method "writeText" then
    call (ClipboardService_writeText svc data) ;; ret VUndefined
  else if is_str method "readText" then
    call (ClipboardService_readText svc)
  else if is_str method "writeImage" then
    call (ClipboardService_writeImage svc data) ;; ret VUndefined
  else ret VUndefined (* log.warn('Unknown clipboard action') *).

Definition handleWindowAction (method : value) : Act value :=
  if is_str method "minimize" then
    call (WindowManager_minimizeWindow svc) ;; ret VNull
  else if is_str method "maximize" then
    call (WindowManager_maximizeWindow svc) ;; ret VNull
  else if is_str method "unmaximize" then
    call (WindowManager_unmaximizeWindow svc) ;; ret VNull
  else if is_str method "close" then
    call (WindowManager_closeWindow svc) ;; ret VNull
  else if is_str method "isMaximized" then
    call (WindowManager_isMaximized svc)
  else if is_str method "removeAllListeners" then
    call (WindowManager_removeAllListeners svc) ;; ret VNull
  else ret VNull (* log.warn('Unknown window action') *).

(** [/^(?:https?|mailto|tel|callto):/i.test(url)] *)
Definition allowedUrls_test (url : jsstring) : bool :=
  existsb
    (fun scheme =>
       startsWith (List.map canonicalize url)
         (List.map canonicalize (js scheme)))
    ["http:"; "https:"; "mailto:"; "tel:"; "callto:"]%string.

Definition openExternal (url : value) : Act value :=
  if allowedUrls_test (toString url) then
    call (shell_openExternal svc url) ;; ret (VBool true)
  else ret (VBool false) (* log.warn('Blocked external URL') *).

Definition watchFile (filePath : value) : Act value :=
  win <- call (BrowserWindow_getFocusedWindow svc) ;;
  match win with
  | VUndefined | VNull => ret VUndefined
  | _ => call (fs_watchFile svc filePath win) ;; ret VUndefined
  end.

Definition unwatchFile (filePath : value) : Act value :=
  call (fs_unwatchFile svc filePath) ;; ret VUndefined.

(** [action === 'literal'], a [case] of the [switch]. *)
Definition case_ (args : Args) (lit : string) : bool :=
  bool_decide (action args = js lit).

(** [handleAction(args)] *)
Definition handleAction (args : Args) : Act value :=
  appDataFolder <-
    (fun s => let '(v, x) := FileService_getAppDataFolder svc (rest s) in
              (Ok v, {| dialogOpen := dialogOpen s; rest := x |})) ;;
  if case_ args "saveFile" then
    call (FileService_saveFile svc
            (field args "fileObject") (field args "data")
            (field args "origStat") (field args "overwrite")
            (field args "defEnc")
            (nullish (field args "enableStoreBkp") (VBool true)))
  else if case_ args "writeFile" then
    call (FileService_writeFile svc (field args "path") (field args "data")
            (field args "enc")) ;;
    ret VNull
  else if case_ args "saveDraft" then
    call (FileService_saveDraft svc (field args "fileObject") (field args "data"))
  else if case_ args "getFileDrafts" then
    call (FileService_getFileDrafts svc (field args "fileObject"))
  else if case_ args "getDocumentsFolder" then
    call (FileService_getDocumentsFolder svc)
  else if case_ args "checkFileExists" then
    call (FileService_checkFileExists svc (field args "pathParts"))
  else if case_ args "showOpenDialog" then
    set_dialogOpen true ;;
    finally
      (win <- call (BrowserWindow_getFocusedWindow svc) ;;
       openResult <- call (dialog_showOpenDialog svc win
                             (field args "defaultPath") (field args "filters")
                             (field args "properties")) ;;
       ret openResult)
      (set_dialogOpen false)
  else if case_ args "showSaveDialog" then
    set_dialogOpen true ;;
    finally
      (win <- call (BrowserWindow_getFocusedWindow svc) ;;
       saveResult <- call (dialog_showSaveDialog svc win
                             (field args "defaultPath") (field args "filters")) ;;
       ret (if canceled saveResult then VNull else filePath saveResult))
      (set_dialogOpen false)
  else if case_ args "installPlugin" then
    call (PluginService_installPlugin svc (field args "filePath") appDataFolder)
  else if case_ args "uninstallPlugin" then
    call (PluginService_uninstallPlugin svc (field args "plugin") appDataFolder) ;;
    ret VNull
  else if case_ args "getPluginFile" then
    call (PluginService_getPluginFile svc (field args "plugin") appDataFolder)
  else if case_ args "isPluginsEnabled" then
    call (PluginService_isPluginsEnabled svc)
  else if case_ args "dirname" then
    call (FileService_dirname svc (field args "path"))
  else if case_ args "readFile" then
    call (FileService_readFile svc (field args "filename") (field args "encoding"))
  else if case_ args "clipboardAction" then
    handleClipboardAction (field args "method") (field args "data") ;;
    ret VNull
  else if case_ args "deleteFile" then
    call (FileService_deleteFile svc (field args "file")) ;;
    ret VNull
  else if case_ args "fileStat" then
    call (FileService_fileStat svc (field args "file"))
  else if case_ args "isFileWritable" then
    call (FileService_isFileWritable svc (field args "file"))
  else if case_ args "windowAction" then
    handleWindowAction (field args "method")
  else if case_ args "openExternal" then
    openExternal (field args "url")
  else if case_ args "watchFile" then
    watchFile (field args "path")
  else if case_ args "unwatchFile" then
    unwatchFile (field args "path") ;;
    ret VNull
  else if case_ args "exit" then
    call (app_quit svc) ;;
    ret VNull
  else if case_ args "isFullscreen" then
    call (WindowManager_isFullScreen svc)
  else
    throw {| message := js "Unknown action: " ++ action args;
             thrown := None |}.

(** The state of the module: the rate limiter, the flag and the rest
    of the process, together with what was sent on [mainResp] (the most
    recent reply first). *)
Record State := {
  rateLimiter : RateLimiter;
  main : Main;
  sent : list Reply
}.

Definition reply (r : Reply) (st : State) : State :=
  {| rateLimiter := rateLimiter st; main := main st; sent := r :: sent st |}.

(** [event.senderFrame?.url || 'unknown'] *)
Definition clientId (event : IpcEvent) : jsstring :=
  match senderFrame event with
  | Some {| url := Some (c :: s) |} => c :: s
  | _ => js "unknown"
  end.

(** The listener that [setupRendererRequestHandler] installs on
    [rendererReq]. *)
Definition rendererReq (config : IPCConfig) (event : IpcEvent)
    (args : Args) (st : State) : State :=
  (* Validate sender *)
  if negb (validateSender config (senderFrame event)) then
    reply (Failure (js "Invalid sender") None (reqId args)) st
  else
    (* Rate limiting *)
    let clientId := clientId event in
    let '(ok, limiter) :=
      canProceed (rateLimiter st) clientId (Date_now svc (rest (main st))) in
    let st := {| rateLimiter := limiter; main := main st; sent := sent st |} in
    if negb ok then
      reply (Failure (js "Rate limit exceeded") None (reqId args)) st
    else
      match handleAction args (main st) with
      | (Ok result, m) =>
          reply (Success result (reqId args))
            {| rateLimiter := limiter; main := m; sent := sent st |}
      | (Throw error, m) =>
          reply (Failure (message error) (Some error) (reqId args))
            {| rateLimiter := limiter; main := m; sent := sent st |}
      end.

(** The closed set of action names. *)
Definition ACTIONS : list string :=
  [ "saveFile"; "writeFile"; "saveDraft"; "getFileDrafts";
    "getDocumentsFolder"; "checkFileExists"; "showOpenDialog";
    "showSaveDialog"; "installPlugin"; "uninstallPlugin"; "getPluginFile";
    "isPluginsEnabled"; "dirname"; "readFile"; "clipboardAction";
    "deleteFile"; "fileStat"; "isFileWritable"; "windowAction";
    "openExternal"; "watchFile"; "unwatchFile"; "exit"; "isFullscreen"
  ]%string.

End Dispatcher.

Arguments value : clear implicits.
Arguments JsError : clear implicits.
Arguments Args : clear implicits.
Arguments Reply : clear implicits.
Arguments Services : clear implicits.
Arguments Main : clear implicits.
Arguments State : clear implicits.

End Handlers.

(* ===================================================================== *)
(** * Notions of the specification *)
(* ===================================================================== *)

Module Spec.
Import Security Sniffer.

(** A directory as a prefix of the paths below it: it ends with a
    separator. *)
Definition dir_prefix (dir : jsstring) : jsstring :=
  if endsWith dir [Path.slash] then dir else dir ++ [Path.slash].

(** [p] lies under the directory [dir] (both resolved): it is the
    directory itself or a path below it. *)
Definition under_dir (dir p : jsstring) : bool :=
  bool_decide (p = dir) || startsWith p (dir_prefix dir).

(** The resolved form of a path, as the validator computes it. *)
Definition resolved (h : Host) (p : jsstring) : jsstring :=
  Path.resolve (cwd h) (normalizePath p).

(** The installation directory, resolved. *)
Definition installDir (h : Host) : jsstring :=
  Path.resolve (cwd h) (getAppBaseDir h).

(** The application installed in [/opt/drawio], packaged or not. *)
Definition packaged : Host :=
  {| module_dir := js "/opt/drawio/resources/app.asar/src/utils";
     cwd := js "/home/u" |}.

Definition unpackaged : Host :=
  {| module_dir := js "/opt/drawio/src/utils"; cwd := js "/home/u" |}.

(** No suspicious pattern occurs in [s]. *)
Definition unsuspicious (s : jsstring) : bool :=
  negb (existsb (fun pattern => test pattern s) SUSPICIOUS_PATTERNS).

(** The last character of [s] is white space. *)
Definition ends_with_space (s : jsstring) : bool :=
  match rev s with
  | c :: _ => is_space c
  | [] => false
  end.

(** The first character of [s] is an opening brace or bracket. *)
Definition brace_initial (s : jsstring) : bool :=
  match s with
  | c :: _ => (c =? ch "{") || (c =? ch "[")
  | [] => false
  end.

(** ** The allow-list of magic prefixes

    A signature is a set of probes into the sniffed head: a character of
    its text or a byte of its binary form at a fixed index. *)
Inductive probe :=
| Chr (i : nat) (a : ascii)
| Byt (i : nat) (v : N).

Definition holds (c cc : list N) (p : probe) : bool :=
  match p with
  | Chr i a => at_is c i (ch a)
  | Byt i v => at_is cc i v
  end.

Definition matches (c cc : list N) (signature : list probe) : bool :=
  forallb (holds c cc) signature.

Local Open Scope char_scope.

Definition MARKUP : list (list probe) :=
  [ [Chr 0 "<"; Chr 1 "!"];
    [Chr 0 "<"; Chr 1 "h"; Chr 2 "t"; Chr 3 "m"; Chr 4 "l"];
    [Chr 0 "<"; Chr 1 "H"; Chr 2 "T"; Chr 3 "M"; Chr 4 "L"];
    [Chr 0 "<"; Chr 1 "b"; Chr 2 "o"; Chr 3 "d"; Chr 4 "y"];
    [Chr 0 "<"; Chr 1 "B"; Chr 2 "O"; Chr 3 "D"; Chr 4 "Y"];
    [Chr 0 "<"; Chr 1 "?"; Chr 2 "x"; Chr 3 "m"; Chr 4 "l"];
    [Chr 0 "<"; Chr 1 "s"; Chr 2 "v"; Chr 3 "g"];
    [Chr 0 "<"; Chr 1 "m"; Chr 2 "x"];
    [Chr 0 "<"; Chr 1 "i"; Chr 2 "m"; Chr 3 "g"];
    [Chr 0 "<"; Chr 1 "i"; Chr 2 "f"; Chr 3 "r"; Chr 4 "a"; Chr 5 "m"; Chr 6 "e"] ].

Definition BOM_PREFIXED : list (list probe) :=
  [ [Byt 0 0xef; Byt 1 0xbb; Byt 2 0xbf; Chr 3 "<"; Chr 4 "?"; Chr 5 "x"];
    [Byt 0 0xfe; Byt 1 0xff; Byt 2 0; Chr 3 "<"; Byt 4 0; Chr 5 "?";
     Byt 6 0; Chr 7 "x"];
    [Byt 0 0xff; Byt 1 0xfe; Chr 2 "<"; Byt 3 0; Chr 4 "?"; Byt 5 0];
    [Byt 0 0x00; Byt 1 0x00; Byt 2 0xfe; Byt 3 0xff];
    [Byt 0 0xff; Byt 1 0xfe; Byt 2 0x00; Byt 3 0x00] ].

Definition PDF : list (list probe) :=
  [ [Byt 0 0x25; Byt 1 0x50; Byt 2 0x44; Byt 3 0x46] ].

Definition PNG : list (list probe) :=
  [ [Byt 0 0x89; Byt 1 0x50; Byt 2 0x4e; Byt 3 0x47];
    [Byt 0 0xc2; Byt 1 0x89; Byt 2 0x50; Byt 3 0x4e] ].

Definition JPEG : list (list probe) :=
  [ [Byt 0 0xff; Byt 1 0xd8; Byt 2 0xff; Byt 3 0xe0];
    [Byt 0 0xff; Byt 1 0xd8; Byt 2 0xff; Byt 3 0xee];
    [Byt 0 0xff; Byt 1 0xd8; Byt 2 0xff; Byt 3 0xe1] ].

Definition WEBP : list (list probe) :=
  [ [Byt 0 0x52; Byt 1 0x49; Byt 2 0x46; Byt 3 0x46;
     Byt 8 0x57; Byt 9 0x45; Byt 10 0x42; Byt 11 0x50] ].

Definition ZIP : list (list probe) :=
  [ [Byt 0 0x50; Byt 1 0x4b; Byt 2 0x03; Byt 3 0x04];
    [Byt 0 0x50; Byt 1 0x4b; Byt 2 0x03; Byt 3 0x06] ].

Definition JSON : list (list probe) :=
  [ [Chr 0 "{"]; [Chr 0 "["] ].

Definition MAGIC_PREFIXES : list (list probe) :=
  MARKUP ++ BOM_PREFIXED ++ PDF ++ PNG ++ JPEG ++ WEBP ++ ZIP ++ JSON.

(** The content is recognised: some magic prefix matches its head. *)
Definition recognized (b : body) (enc : option jsstring) : bool :=
  match heads b enc with
  | None => false
  | Some (c, cc) => existsb (matches c cc) MAGIC_PREFIXES
  end.

(** One sample of content per recognised format, as bytes. *)
Definition text (s : string) : list N := Encoding.utf8_encode (js s).

Definition CANONICAL_SAMPLES : list (list N) :=
  [ text "<!DOCTYPE html><html></html>";
    text "<html><body></body></html>";
    text "<body></body>";
    text "<?xml version='1.0' encoding='UTF-8'?><mxfile/>";
    text "<svg xmlns='http://www.w3.org/2000/svg'/>";
    text "<mxfile><diagram/></mxfile>";
    text "<mxGraphModel><root/></mxGraphModel>";
    text "<mxlibrary>[]</mxlibrary>";
    text "<img src='a.png'/>";
    text "<iframe src='a.html'></iframe>";
    (* UTF-8, UTF-16 BE, UTF-16 LE byte-order marks before [<?xml] *)
    [0xef; 0xbb; 0xbf] ++ text "<?xml version='1.0'?><mxfile/>";
    [0xfe; 0xff; 0; 0x3c; 0; 0x3f; 0; 0x78; 0; 0x6d; 0; 0x6c];
    [0xff; 0xfe; 0x3c; 0; 0x3f; 0; 0x78; 0; 0x6d; 0; 0x6c; 0];
    (* UTF-32 BE and LE byte-order marks *)
    [0x00; 0x00; 0xfe; 0xff; 0; 0; 0; 0x3c];
    [0xff; 0xfe; 0x00; 0x00; 0x3c; 0; 0; 0];
    (* PDF, PNG *)
    [0x25; 0x50; 0x44; 0x46; 0x2d; 0x31; 0x2e; 0x37];
    [0x89; 0x50; 0x4e; 0x47; 0x0d; 0x0a; 0x1a; 0x0a];
    (* JPEG: JFIF, Adobe, Exif *)
    [0xff; 0xd8; 0xff; 0xe0; 0x00; 0x10; 0x4a; 0x46; 0x49; 0x46];
    [0xff; 0xd8; 0xff; 0xee; 0x00; 0x0e; 0x41; 0x64; 0x6f; 0x62; 0x65];
    [0xff; 0xd8; 0xff; 0xe1; 0x00; 0x18; 0x45; 0x78; 0x69; 0x66];
    (* WebP: RIFF....WEBP *)
    [0x52; 0x49; 0x46; 0x46; 0x24; 0x00; 0x00; 0x00; 0x57; 0x45; 0x42; 0x50];
    (* ZIP: the two accepted signatures *)
    [0x50; 0x4b; 0x03; 0x04; 0x14; 0x00];
    [0x50; 0x4b; 0x03; 0x06];
    (* JSON *)
    text "{}";
    text "[]" ].

End Spec.

(* ===================================================================== *)
(** * Notions of the specification: tidy names *)
(* ===================================================================== *)

Module Tidy.
Import Security.

(** The white space of [l] consists of single blanks; [prev] says that
    the character before [l] is white space, so that [l] may not begin
    with any. *)
Fixpoint spaced (prev : bool) (l : jsstring) : Prop :=
  match l with
  | [] => True
  | c :: r =>
      if is_space c then prev = false /\ c = 32 /\ spaced true r
      else spaced false r
  end.

(** Neither a path separator nor one of the dangerous characters. *)
Definition plain (c : N) : Prop :=
  negb (is_separator c) = true /\ negb (is_dangerous c) = true.

(** The name before truncation, after it, and after the substitution
    of [unnamed]. *)
Definition core (x : jsstring) : jsstring :=
  trim
    (collapse_spaces false
       (List.filter (fun c => negb (is_dangerous c))
          (List.filter (fun c => negb (is_separator c)) x))).

Definition truncated (x : jsstring) : jsstring := firstn 255 (core x).

Definition fallback (t : jsstring) : jsstring :=
  if match t with [] => true | _ => false end || only_dots t
  then js "unnamed" else t.

End Tidy.

(* ===================================================================== *)
(** * Notions of the specification: runs of the file store *)
(* ===================================================================== *)

Module Runs.
Import Host FileService.

(** What the next call of [writeFile(fh, data)] leaves in the file. *)
Definition landed (data : jsstring) (w : World) : jsstring :=
  match medium w with
  | Some d :: _ => d
  | _ => data
  end.

(** The world after one durable write of [data] to [p] and the
    read-back that follows it. *)
Definition after_attempt (p data : jsstring) (w : World) : World :=
  {| files := <[p := written (landed data w) (now w)]>
                (<[p := written [] (now w)]> (files w));
     readonly := readonly w;
     medium := tl (medium w);
     now := now w;
     trace := EvRead p (landed data w) :: EvClose p :: EvSync p
              :: EvWrite p data :: EvOpen p :: trace w |}.

(** The world after the clean-up of a stale legacy backup. *)
Definition after_cleanup (backupCreated : bool) (oldBkpPath : jsstring)
    (w : World) : World :=
  if backupCreated && bool_decide (is_Some (files w !! oldBkpPath))
  then log (EvUnlink oldBkpPath) (set_files (delete oldBkpPath (files w)) w)
  else w.

Definition after_sleep (ms : Z) (w : World) : World :=
  {| files := files w; readonly := readonly w; medium := medium w;
     now := (now w + ms)%Z; trace := EvSleep ms :: trace w |}.

(** The number of calls [writeFile(fh, ..)] on [p] in a log. *)
Fixpoint count_writes (p : jsstring) (tr : list Event) : nat :=
  match tr with
  | [] => 0
  | EvWrite q _ :: r =>
      if decide (q = p) then S (count_writes p r) else count_writes p r
  | _ :: r => count_writes p r
  end.

(** The delays of a log, in the order in which they were awaited (a log
    has its most recent entry first). *)
Fixpoint sleeps (tr : list Event) : list Z :=
  match tr with
  | [] => []
  | EvSleep ms :: r => sleeps r ++ [ms]
  | _ :: r => sleeps r
  end.

(** What the most recent [readFile] of [p] returned. *)
Fixpoint last_read_back (p : jsstring) (tr : list Event) : option jsstring :=
  match tr with
  | [] => None
  | EvRead q d :: r =>
      if decide (q = p) then Some d else last_read_back p r
  | _ :: r => last_read_back p r
  end.

(** The error that ends a save whose verification failed three times. *)
Definition verification_failed (p : jsstring) : Error :=
  FileError (js "Write verification failed after retries") FILE_INVALID p.

(** The backup sibling [<dir>/.$<basename>.bkp] and its legacy name. *)
Definition bkpPath (p : jsstring) : jsstring :=
  Path.join (Path.dirname p) (BKP_PREFEX ++ Path.basename p ++ BKP_EXT).

Definition oldBkpPath (p : jsstring) : jsstring :=
  Path.join (Path.dirname p) (OLD_BKP_PREFEX ++ Path.basename p ++ BKP_EXT).

(** The log of a backup of [p], whose content was [old]: read, then a
    durable write of the sibling (most recent entry first). *)
Definition backup_log (env : Env) (p old : jsstring) : list Event :=
  [EvClose (bkpPath p)]
  ++ (if isWin env then [EvSpawn (js "attrib") [js "+h"; bkpPath p]] else [])
  ++ [EvSync (bkpPath p); EvWrite (bkpPath p) old; EvOpen (bkpPath p);
      EvRead p old].

(** The answer of [validateFileSize]: a file that exists is within the
    cap. *)
Definition within_cap (p : jsstring) (w : World) : bool :=
  match files w !! p with
  | Some f => negb (Security.MAX_FILE_SIZE <? size (stats f))%Z
  | None => true
  end.

(** The call passes the validation of path, content and size. *)
Definition passes_validation (env : Env) (fo : FileObject) (data : jsstring)
    (w : World) : bool :=
  Security.isOutsideAppDir (host env) (path fo)
  && Sniffer.checkFileContent (Sniffer.BString data) None
  && Security.validateFileContent data
  && within_cap (path fo) w.

(** The error code of a thrown error, when it is a [FileError]. *)
Definition code_of (e : Error) : option ErrorCode :=
  match e with
  | FileError _ c _ => Some c
  | SystemError _ _ => None
  end.

(** A file system for the examples: the diagram [/home/u/d.drawio],
    last modified at time 5. *)
Definition diagram : FileObject :=
  {| path := js "/home/u/d.drawio"; encoding := None |}.

Definition stat5 : Stats := {| mtimeMs := 5; ctimeMs := 5; size := 9 |}.

Definition disk : World :=
  {| files := {[ js "/home/u/d.drawio" :=
                   {| content := js "<mxfile/>"; stats := stat5 |} ]};
     readonly := ∅; medium := []; now := 10; trace := [] |}.

Definition linux : Env :=
  {| host := {| Security.module_dir := js "/opt/drawio/resources/app.asar/src/utils";
                Security.cwd := js "/home/u" |};
     isWin := false |}.

(** The same directory with one draft of the diagram and nothing else. *)
Definition one_draft : World :=
  {| files := {[ js "/home/u/.$d.drawio.dtmp" :=
                   {| content := js "<mxfile/>"; stats := stat5 |} ]};
     readonly := ∅; medium := []; now := 10; trace := [] |}.

End Runs.

(* ===================================================================== *)
(** * src/services/FileService.js and src/utils/security.js: the other
      operations on files *)
(* ===================================================================== *)

Module FileOps.
Import Host FileService.
Local Open Scope eff_scope.

(** [fsProm.writeFile(p, data, enc)] on a path: the file is created or
    replaced in one call, logged as a write. *)
Definition writeFilePath (p data : jsstring) : M unit :=
  fun w =>
    if decide (p ∈ readonly w)
    then (Throw (SystemError (js "EACCES") p), w)
    else writeFh p data w.

(** [fsProm.unlink(p)] *)
Definition unlink (p : jsstring) : M unit :=
  fun w =>
    match files w !! p with
    | None => (Throw (SystemError (js "ENOENT") p), w)
    | Some _ => (Ok tt, log (EvUnlink p) (set_files (delete p (files w)) w))
    end.

(** [secureDelete(filePath)] of [security.js]; every entry of the file
    system modelled here is a regular file. *)
Definition secureDelete (h : Security.Host) (filePath : jsstring) : M bool :=
  r <- attempt
         ((* Verify file exists and is a regular file *)
          stats <- stat filePath ;;
          (* Check file is outside app directory *)
          if negb (Security.isOutsideAppDir h filePath) then ret false
          else unlink filePath ;; ret true) ;;
  match r with
  | Ok b => ret b
  | Throw _ => ret false (* log.exception *)
  end.

(** The [do .. while] loop of [getDraftFileName], one iteration per unit
    of [fuel]; [None] when the fuel runs out. *)
Fixpoint getDraftFileName_loop (fuel : nat) (filePath : jsstring)
    (counter : N) (uniquePart : jsstring) : M (option jsstring) :=
  match fuel with
  | O => ret None
  | S fuel' =>
      let draftFileName := draftSibling DRAFT_PREFEX filePath uniquePart in
      let uniquePart := js "_" ++ num_to_js counter in
      let counter := counter + 1 in
      ex <- existsSync draftFileName ;;
      if ex then getDraftFileName_loop fuel' filePath counter uniquePart
      else ret (Some draftFileName)
  end.

(** [getDraftFileName(fileObject)] *)
Definition getDraftFileName (fuel : nat) (filePath : jsstring)
    : M (option jsstring) :=
  getDraftFileName_loop fuel filePath 1 [].

(** The handle that [saveDraft] takes: [{path, draftFileName?}]. *)
Record DraftObject := {
  owner : jsstring;                    (* path *)
  draftFileName : option jsstring
}.

(** [saveDraft(fileObject, data)]; [None] when [getDraftFileName] ran
    out of fuel. *)
Definition saveDraft (env : Env) (fuel : nat) (fileObject : DraftObject)
    (data : jsstring) : M (option jsstring) :=
  name <- match draftFileName fileObject with
          | Some (c :: s) => ret (Some (c :: s))
          | _ => getDraftFileName fuel (owner fileObject)
          end ;;
  match name with
  | None => ret None
  | Some draftFileName =>
      (* Validate data *)
      if negb (Sniffer.checkFileContent (Sniffer.BString data) None)
         || negb (Security.isOutsideAppDir (host env) draftFileName) then
        throw (FileError (js "Invalid file data") FILE_INVALID draftFileName)
      else
        (* Validate size *)
        sizeOk <- validateFileSize draftFileName ;;
        if negb sizeOk || negb (Security.validateFileContent data) then
          throw (FileError (js "File too large") FILE_TOO_LARGE draftFileName)
        else
          writeFilePath draftFileName data ;;
          (* Set hidden attribute on Windows *)
          (if isWin env
           then attempt (spawn (js "attrib") [js "+h"; draftFileName]) ;; ret tt
           else ret tt) ;;
          ret (Some draftFileName)
  end.

(** [writeFile(filePath, data, enc)] of the file store, for string
    data. *)
Definition writeFile (env : Env) (filePath data : jsstring)
    (enc : option jsstring) : M unit :=
  if negb (Security.isOutsideAppDir (host env) filePath) then
    throw (FileError (js "Cannot write to application directory")
             SECURITY_VIOLATION filePath)
  else if negb (Sniffer.checkFileContent (Sniffer.BString data) enc)
          || negb (Security.validateFileContent data) then
    throw (FileError (js "Invalid file data") FILE_INVALID filePath)
  else
    sizeOk <- validateFileSize filePath ;;
    if negb sizeOk then
      throw (FileError (js "File too large") FILE_TOO_LARGE filePath)
    else
      opened <- attempt (open filePath) ;;
      match opened with
      | Throw e => throw e
      | Ok fh => finally (writeFh fh data ;; sync fh) (close fh)
      end.

(** The [n]-th name that [getDraftFileName] probes. *)
Definition uniquePart_at (n : nat) : jsstring :=
  match n with
  | O => []
  | S _ => js "_" ++ num_to_js (N.of_nat n)
  end.

Definition draft_at (filePath : jsstring) (n : nat) : jsstring :=
  draftSibling DRAFT_PREFEX filePath (uniquePart_at n).

End FileOps.

(* ===================================================================== *)
(** * src/services/PluginService.js: looking up and removing a plugin *)
(* ===================================================================== *)

Module PluginService.
Import Host.
Local Open Scope eff_scope.

(** The state of the module, [pluginsEnabled], next to the host. *)
Record PluginState := {
  pluginsEnabled : bool;
  world : World
}.

(** A [SecurityError] with its code. *)
Record SecurityError := {
  se_message : jsstring;
  se_code : jsstring
}.

Abbreviation P := (Eff.M PluginState SecurityError).

Definition setPluginsEnabled (enabled : bool) : P unit :=
  modify (fun s => {| pluginsEnabled := enabled; world := world s |}).

Definition isPluginsEnabled : P bool :=
  fun s => (Ok (pluginsEnabled s), s).

Definition getPluginsDir (appDataFolder : jsstring) : jsstring :=
  Path.join appDataFolder (js "plugins").

(** [getPluginFile(plugin, appDataFolder)]; [None] is [null]. *)
Definition getPluginFile (plugin appDataFolder : jsstring)
    : P (option jsstring) :=
  fun s =>
    if negb (pluginsEnabled s) then (Ok None, s)
    else
      let pluginsDir := getPluginsDir appDataFolder in
      let pluginFile :=
        Path.join pluginsDir (Security.sanitizeFilename plugin) in
      (* Validate the resolved path is within plugins directory *)
      if negb (startsWith pluginFile pluginsDir) then (Ok None, s)
      else if negb (bool_decide (is_Some (files (world s) !! pluginFile)))
      then (Ok None, s)
      else (Ok (Some pluginFile), s).

(** [uninstallPlugin(plugin, appDataFolder)] *)
Definition uninstallPlugin (plugin appDataFolder : jsstring) : P unit :=
  pluginFile <- getPluginFile plugin appDataFolder ;;
  match pluginFile with
  | Some (c :: f) =>
      fun s =>
        match FileOps.unlink (c :: f) (world s) with
        | (Ok _, w) => (Ok tt, {| pluginsEnabled := pluginsEnabled s; world := w |})
        | (Throw _, w) =>
            (Throw {| se_message := js "Failed to uninstall plugin";
                      se_code := js "UNINSTALL_FAILED" |},
             {| pluginsEnabled := pluginsEnabled s; world := w |})
        end
  | _ => ret tt
  end.

End PluginService.

(* ===================================================================== *)
(** * src/utils/display.js *)
(* ===================================================================== *)

Module Display.

Record Position := { pos_x : Z; pos_y : Z }.

(** [display.workArea], in whole pixels. *)
Record Rectangle := { x : Z; y : Z; width : Z; height : Z }.

Local Open Scope Z_scope.

Definition contains (area : Rectangle) (pos : Position) : bool :=
  (x area <=? pos_x pos) && (y area <=? pos_y pos)
  && (pos_x pos <? x area + width area)
  && (pos_y pos <? y area + height area).

(** [isWithinDisplayBounds(pos)], with [displays] the work areas of
    [screen.getAllDisplays()]. *)
Definition isWithinDisplayBounds (displays : list Rectangle)
    (pos : Position) : bool :=
  existsb (fun area => contains area pos) displays.

(** [getDisplayAtPosition(pos)] *)
Definition getDisplayAtPosition (displays : list Rectangle)
    (pos : Position) : option Rectangle :=
  List.find (fun area => contains area pos) displays.

End Display.

(* ===================================================================== *)
(** * src/services/WindowManager.js: the persisted window state *)
(* ===================================================================== *)

Module WindowManager.

(** The numbers of a window state: whole numbers, or [NaN] when
    [parseInt] finds no digits.  [parseInt] and the conversion to a
    string are those of JavaScript for integers of magnitude below
    2^53. *)
Inductive number :=
| NaN
| Int (z : Z).

Record WindowState := {
  width : number;
  height : number;
  x : option number;      (* [undefined] or a number *)
  y : option number;
  maximized : bool;
  fullscreen : bool
}.

Definition getDefaultWindowState : WindowState :=
  {| width := Int 1200; height := Int 800; x := None; y := None;
     maximized := false; fullscreen := false |}.

(** [s.split(',')] *)
Fixpoint split_comma (s cur : jsstring) : list jsstring :=
  match s with
  | [] => [rev cur]
  | c :: r => if c =? 44 then rev cur :: split_comma r [] else split_comma r (c :: cur)
  end.

Definition is_digit (c : N) : bool := (48 <=? c) && (c <=? 57).

(** The value of the leading digits of [s], continuing from [acc]. *)
Fixpoint digits_value (s : jsstring) (acc : N) : N :=
  match s with
  | c :: r => if is_digit c then digits_value r (10 * acc + (c - 48)) else acc
  | [] => acc
  end.

(** [parseInt(s, 10)] *)
Definition parseInt (s : jsstring) : number :=
  let s := trimStart s in
  let '(negative, s) :=
    match s with
    | 45 :: r => (true, r)
    | 43 :: r => (false, r)
    | _ => (false, s)
    end in
  match s with
  | c :: _ =>
      if is_digit c then
        let v := Z.of_N (digits_value s 0) in
        Int (if negative then - v else v)%Z
      else NaN
  | [] => NaN
  end.

(** [`${n}`] *)
Definition number_to_js (n : number) : jsstring :=
  match n with
  | NaN => js "NaN"
  | Int z =>
      if (z <? 0)%Z then 45 :: num_to_js (Z.to_N (- z))
      else num_to_js (Z.to_N z)
  end.

Definition bool_to_js (b : bool) : jsstring :=
  if b then js "true" else js "false".

(** [n < 500], false for [NaN]. *)
Definition below (n : number) (bound : Z) : bool :=
  match n with
  | NaN => false
  | Int z => (z <? bound)%Z
  end.

(** [parts[i] === 'true'] *)
Definition part_is_true (parts : list jsstring) (i : nat) : bool :=
  match nth_error parts i with
  | Some p => bool_decide (p = js "true")
  | None => false
  end.

(** [parseWindowState(stateStr)]; [None] is [null] or [undefined]. *)
Definition parseWindowState (stateStr : option jsstring) : WindowState :=
  match stateStr with
  | None | Some [] => getDefaultWindowState
  | Some s =>
      let parts := split_comma s [] in
      match parts with
      | p0 :: p1 :: p2 :: p3 :: _ =>
          let width := parseInt p0 in
          let height := parseInt p1 in
          let x := parseInt p2 in
          let y := parseInt p3 in
          let maximized := part_is_true parts 4 in
          let fullscreen := part_is_true parts 5 in
          (* Enforce minimum size *)
          let width := if below width 500 then Int 500 else width in
          let height := if below height 500 then Int 500 else height in
          {| width := width; height := height; x := Some x; y := Some y;
             maximized := maximized; fullscreen := fullscreen |}
      | _ => getDefaultWindowState
      end
  end.

(** [x ?? 0] *)
Definition or_zero (n : option number) : number :=
  match n with
  | Some v => v
  | None => Int 0
  end.

(** [serializeWindowState(state)] *)
Definition serializeWindowState (state : WindowState) : jsstring :=
  number_to_js (width state) ++ 44 :: number_to_js (height state)
  ++ 44 :: number_to_js (or_zero (x state))
  ++ 44 :: number_to_js (or_zero (y state))
  ++ 44 :: bool_to_js (maximized state)
  ++ 44 :: bool_to_js (fullscreen state).

(** The minimum that [parseWindowState] enforces. *)
Definition at_least (bound : Z) (n : number) : Prop :=
  match n with
  | NaN => True
  | Int z => (bound <= z)%Z
  end.

(** An integer that JavaScript represents and prints exactly. *)
Definition safe (n : number) : Prop :=
  match n with
  | NaN => True
  | Int z => (Z.abs z < 2 ^ 53)%Z
  end.

End WindowManager.

(* ===================================================================== *)
(** * Notions for the further properties *)
(* ===================================================================== *)

Module Usage.
Import Security.

(** A run of calls [canProceed(key)] at the given times: the answers, in
    order, and the limiter afterwards. *)
Fixpoint canProceed_seq (rl : RateLimiter) (key : jsstring) (times : list Z)
    : list bool * RateLimiter :=
  match times with
  | [] => ([], rl)
  | now :: later =>
      let '(ok, rl1) := canProceed rl key now in
      let '(oks, rl2) := canProceed_seq rl1 key later in
      (ok :: oks, rl2)
  end.

(** The history that the limiter keeps for [key]. *)
Definition history (rl : RateLimiter) (key : jsstring) : list Z :=
  default [] (calls rl !! key).

(** The entries of a history that [canProceed] still counts at [now]. *)
Definition recent (rl : RateLimiter) (key : jsstring) (now : Z) : list Z :=
  List.filter (fun timestamp => (now - timestamp <? windowMs rl)%Z)
    (history rl key).

(** The answers of a burst of [n] calls when [avail] more calls fit in
    the window: acceptances, then rejections. *)
Definition burst_answers (avail n : nat) : list bool :=
  repeat true (Nat.min n avail) ++ repeat false (n - avail).

(** The state of the main process after
    [FileService.getAppDataFolder()], the first step of every action. *)
Definition after_appData {V X : Type} (svc : Handlers.Services V X)
    (m : Handlers.Main X) : Handlers.Main X :=
  {| Handlers.dialogOpen := Handlers.dialogOpen m;
     Handlers.rest :=
       snd (Handlers.FileService_getAppDataFolder svc (Handlers.rest m)) |}.

(** An action that opens a dialog. *)
Definition is_dialog_action (name : jsstring) : bool :=
  bool_decide (name = js "showOpenDialog")
  || bool_decide (name = js "showSaveDialog").

(** A command that leaves the flag [dialogOpen] as it found it. *)
Definition keeps_flag {V X A : Type}
    (c : Eff.M (Handlers.Main X) (Handlers.JsError V) A) : Prop :=
  forall m, Handlers.dialogOpen (snd (c m)) = Handlers.dialogOpen m.

End Usage.

(* ===================================================================== *)
(** * src/utils/error-handler.js: retrying an operation *)
(* ===================================================================== *)

Module ErrorHandler.
Local Open Scope eff_scope.
Local Open Scope Z_scope.

Section HandleAsyncError.
Context {S E T : Type}.

(** [error.message] and [getUserFriendlyError(error)] of a thrown
    [Error]. *)
Variable message : E -> jsstring.
Variable getUserFriendlyError : E -> jsstring.

(** What [handleAsyncError] does around the operation. *)
Inductive Event :=
| EvCall                                  (* operation() *)
| EvWarn (attempt retry : Z)              (* log.warn: retrying *)
| EvTimeout (ms : Z)                      (* setTimeout(resolve, ms) *)
| EvException (e : E)                     (* log.exception *)
| EvOnError (e : E)                       (* onError(lastError) *)
| EvDialog (title userMessage details : jsstring).

(** The state of the operation and the events so far, the most recent
    first. *)
Record St := {
  inner : S;
  events : list Event
}.

Record Options := {
  silent : bool;
  retry : Z;
  onError : option (E -> Eff.M S E unit)
}.

Definition emit (ev : Event) : Eff.M St E unit :=
  modify (fun s => {| inner := inner s; events := ev :: events s |}).

(** A call of a function of the caller, which sees its own state. *)
Definition run {A} (ev : Event) (f : Eff.M S E A) : Eff.M St E A :=
  fun s =>
    let '(r, i) := f (inner s) in
    (r, {| inner := i; events := ev :: events s |}).

(** The [for] loop: [remaining] iterations from [attempt] on.  It ends
    with the value that the operation returned, or with [lastError]. *)
Fixpoint attempts (operation : Eff.M S E T) (remaining : nat)
    (attempt retry : Z) (lastError : option E)
    : Eff.M St E (T + option E) :=
  match remaining with
  | O => ret (inr lastError)
  | Datatypes.S remaining' =>
      r <- Eff.attempt (run EvCall operation) ;;
      match r with
      | Ok v => ret (inl v)
      | Throw error =>
          (if attempt <? retry then
             emit (EvWarn (attempt + 1) retry) ;;
             (* Exponential backoff *)
             emit (EvTimeout (2 ^ attempt * 1000))
           else ret tt) ;;
          attempts operation remaining' (attempt + 1) retry (Some error)
      end
  end.

(** [handleAsyncError(operation, context, options)] for a whole number
    [retry]; [None] is [null]. *)
Definition handleAsyncError (operation : Eff.M S E T) (options : Options)
    : Eff.M St E (option T) :=
  r <- attempts operation (Z.to_nat (retry options + 1)) 0 (retry options)
         None ;;
  match r with
  | inl v => ret (Some v)
  | inr None => ret None
  | inr (Some lastError) =>
      (* All retries exhausted *)
      emit (EvException lastError) ;;
      match onError options with
      | Some f => run (EvOnError lastError) (f lastError)
      | None => ret tt
      end ;;
      (if negb (silent options) then
         emit (EvDialog (js "Error") (getUserFriendlyError lastError)
                 (message lastError))
       else ret tt) ;;
      ret None
  end.

(** The calls of the operation among some events. *)
Definition calls (evs : list Event) : nat :=
  length (List.filter (fun ev => match ev with EvCall => true | _ => false end)
            evs).

(** The delays asked of [setTimeout], the oldest first. *)
Definition timeouts (evs : list Event) : list Z :=
  flat_map (fun ev => match ev with EvTimeout ms => [ms] | _ => [] end)
    (rev evs).

(** The error dialogs shown and the errors logged. *)
Definition reports (evs : list Event) : nat :=
  length (List.filter
            (fun ev => match ev with
                       | EvDialog _ _ _ | EvException _ | EvOnError _ => true
                       | _ => false
                       end) evs).

Definition dialogs (evs : list Event) : nat :=
  length (List.filter
            (fun ev => match ev with EvDialog _ _ _ => true | _ => false end)
            evs).

(** The backoff: one second, doubled [n - 1] times. *)
Definition backoff (from : Z) (n : nat) : list Z :=
  List.map (fun i => 2 ^ (from + Z.of_nat i) * 1000) (seq 0 n).

(** The events that a run added to those of [s]. *)
Definition added (s s' : St) : list Event :=
  firstn (length (events s') - length (events s)) (events s').

End HandleAsyncError.

Arguments Event : clear implicits.
Arguments St : clear implicits.
Arguments Options : clear implicits.

End ErrorHandler.

(* ===================================================================== *)
(** * A host for running the dispatcher *)
(* ===================================================================== *)

Module Recorder.
Import Handlers.

(** Services that only record their names: the rest of the process is
    the list of the calls made, the most recent first, and there are no
    opaque objects. *)
Definition recording {A : Type} (name : string) (a : A)
    : Eff.M (list string) (JsError Empty_set) A :=
  fun x => (Ok a, name :: x).

Definition recorder : Services Empty_set (list string) :=
  {| Date_now := fun _ => 0%Z;
     objectToString := fun v : Empty_set => match v with end;
     FileService_getAppDataFolder := fun x =>
       (VString (js "/home/u/.config/draw.io"),
        "getAppDataFolder"%string :: x);
     FileService_saveFile :=
       fun _ _ _ _ _ _ => recording "saveFile" VUndefined;
     FileService_writeFile := fun _ _ _ => recording "writeFile" VUndefined;
     FileService_saveDraft := fun _ _ => recording "saveDraft" VUndefined;
     FileService_getFileDrafts :=
       fun _ => recording "getFileDrafts" VUndefined;
     FileService_getDocumentsFolder :=
       recording "getDocumentsFolder" VUndefined;
     FileService_checkFileExists :=
       fun _ => recording "checkFileExists" VUndefined;
     FileService_dirname := fun _ => recording "dirname" VUndefined;
     FileService_readFile := fun _ _ => recording "readFile" VUndefined;
     FileService_deleteFile := fun _ => recording "deleteFile" VUndefined;
     FileService_fileStat := fun _ => recording "fileStat" VUndefined;
     FileService_isFileWritable :=
       fun _ => recording "isFileWritable" VUndefined;
     BrowserWindow_getFocusedWindow := recording "getFocusedWindow" VUndefined;
     dialog_showOpenDialog :=
       fun _ _ _ _ => recording "showOpenDialog" VUndefined;
     dialog_showSaveDialog := fun _ _ _ => recording "showSaveDialog" 
         {| canceled := true; filePath := VUndefined |};
     PluginService_installPlugin :=
       fun _ _ => recording "installPlugin" VUndefined;
     PluginService_uninstallPlugin :=
       fun _ _ => recording "uninstallPlugin" VUndefined;
     PluginService_getPluginFile :=
       fun _ _ => recording "getPluginFile" VUndefined;
     PluginService_isPluginsEnabled := recording "isPluginsEnabled" VUndefined;
     ClipboardService_writeText := fun _ => recording "writeText" VUndefined;
     ClipboardService_readText := recording "readText" VUndefined;
     ClipboardService_writeImage := fun _ => recording "writeImage" VUndefined;
     WindowManager_minimizeWindow := recording "minimizeWindow" VUndefined;
     WindowManager_maximizeWindow := recording "maximizeWindow" VUndefined;
     WindowManager_unmaximizeWindow := recording "unmaximizeWindow" VUndefined;
     WindowManager_closeWindow := recording "closeWindow" VUndefined;
     WindowManager_isMaximized := recording "isMaximized" VUndefined;
     WindowManager_removeAllListeners :=
       recording "removeAllListeners" VUndefined;
     WindowManager_isFullScreen := recording "isFullScreen" VUndefined;
     shell_openExternal := fun _ => recording "openExternal" VUndefined;
     fs_watchFile := fun _ _ => recording "watchFile" VUndefined;
     fs_unwatchFile := fun _ => recording "unwatchFile" VUndefined;
     app_quit := recording "quit" VUndefined |}.

(** A request for the clipboard and one for a local file. *)
Definition read_clipboard : Args Empty_set :=
  {| action := js "clipboardAction"; reqId := 1;
     fields := {[ js "method" := VString (js "readText") ]} |}.

Definition open_local_file : Args Empty_set :=
  {| action := js "openExternal"; reqId := 2;
     fields := {[ js "url" := VString (js "file:///etc/passwd") ]} |}.

Definition idle : Main (list string) :=
  {| dialogOpen := false; rest := [] |}.

End Recorder.

(* ===================================================================== *)
(** * The unit tests of the validator, replayed on the embedding

    The cases of [tests/unit/utils/security.test.js] that concern the
    functions modelled here, on a POSIX host. *)
(* ===================================================================== *)

Module UnitTests.
Import Security Spec.

Example accepts_paths_within_allowed_prefixes :
  isValidPath packaged (js "/home/user/documents/file.drawio")
    [js "/home/user/documents"; js "/tmp"] = true /\
  isValidPath packaged (js "/tmp/test.xml")
    [js "/home/user/documents"; js "/tmp"] = true.
Proof. split; vm_compute; reflexivity. Qed.

Example rejects_paths_outside_allowed_prefixes :
  isValidPath packaged (js "/etc/passwd") [js "/home/user/documents"] = false /\
  isValidPath packaged (js "/root/.ssh/id_rsa") [js "/home/user/documents"]
  = false.
Proof. split; vm_compute; reflexivity. Qed.

Example rejects_paths_with_directory_traversal :
  isValidPath packaged (js "/home/user/documents/../../../etc/passwd")
    [js "/home/user/documents"] = false.
Proof. vm_compute; reflexivity. Qed.

Example rejects_very_long_paths :
  isValidPath packaged (js "/home/" ++ repeat (ch "a") 5000) [js "/home"]
  = false.
Proof. vm_compute; reflexivity. Qed.

Example rejects_paths_with_suspicious_patterns :
  isValidPath packaged (js "/home/file<script>alert(1)</script>") [js "/home"]
  = false /\
  isValidPath packaged (js "/home/filejavascript:") [js "/home"] = false.
Proof. split; vm_compute; reflexivity. Qed.

Example user_directories_are_outside :
  isOutsideAppDir packaged (js "/home/user/documents/file.drawio") = true /\
  isOutsideAppDir packaged (js "C:\Users\User\Documents\file.drawio") = true.
Proof. split; vm_compute; reflexivity. Qed.

Example validates_text_content :
  validateFileContent (js "Hello, World!") = true.
Proof. vm_compute; reflexivity. Qed.

Example rejects_suspicious_content :
  validateFileContent (js "content with <script>alert(1)</script>") = false /\
  validateFileContent (js "content with javascript:alert(1)") = false.
Proof. split; vm_compute; reflexivity. Qed.

Example removes_path_separators :
  sanitizeFilename (js "path/to/file.txt") = js "pathtofile.txt" /\
  sanitizeFilename (js "path\to\file.txt") = js "pathtofile.txt".
Proof. split; vm_compute; reflexivity. Qed.

Example replaces_multiple_spaces :
  sanitizeFilename (js "file    name.txt") = js "file name.txt".
Proof. vm_compute; reflexivity. Qed.

Example handles_empty_or_dot_only_names :
  sanitizeFilename (js "") = js "unnamed" /\
  sanitizeFilename (js "...") = js "unnamed" /\
  sanitizeFilename (js "   ") = js "unnamed".
Proof. repeat split; vm_compute; reflexivity. Qed.

(** [new RateLimiter(3, 1000)], with calls at the times 0, 1, 2, 3. *)
Example blocks_calls_over_the_limit :
  let l0 := newRateLimiter 3 1000 in
  let '(a, l1) := canProceed l0 (js "user1") 0 in
  let '(b, l2) := canProceed l1 (js "user1") 1 in
  let '(c, l3) := canProceed l2 (js "user1") 2 in
  let '(d, l4) := canProceed l3 (js "user1") 3 in
  let '(e, l5) := canProceed l4 (js "user2") 3 in
  let '(f, _) := canProceed (reset l5 (js "user1")) (js "user1") 3 in
  (a, b, c, d, e, f) = (true, true, true, false, true, true).
Proof. vm_compute; reflexivity. Qed.

End UnitTests.

(* ===================================================================== *)
(** * Properties of the path validator *)
(* ===================================================================== *)

Module PathValidatorProofs.
Import Security Spec.

Lemma startsWith_refl (s : jsstring) : startsWith s s = true.
Proof. induction s as [|a s IH]; simpl; [reflexivity|]. now rewrite N.eqb_refl. Qed.

Lemma startsWith_app (s p q : jsstring) :
  startsWith s (p ++ q) = true -> startsWith s p = true.
Proof.
  revert s. induction p as [|b p IH]; intros s; simpl; [reflexivity|].
  destruct s as [|a s]; [discriminate|].
  intros H. apply andb_true_iff in H as [H1 H2].
  rewrite H1. simpl. now apply IH.
Qed.

Lemma startsWith_dir_prefix (dir p : jsstring) :
  startsWith p (dir_prefix dir) = true -> startsWith p dir = true.
Proof.
  unfold dir_prefix. destruct (endsWith dir [Path.slash]); [easy|].
  apply startsWith_app.
Qed.

(** A path under a directory starts with the directory's name. *)
Lemma under_dir_startsWith (dir p : jsstring) :
  under_dir dir p = true -> startsWith p dir = true.
Proof.
  unfold under_dir. intros H. apply orb_true_iff in H as [H|H].
  - apply bool_decide_eq_true in H. subst. apply startsWith_refl.
  - now apply startsWith_dir_prefix.
Qed.

(** For every path under the installation directory the check answers
    [false]. *)
Lemma isOutsideAppDir_inside (h : Host) (p : jsstring) :
  under_dir (installDir h) (resolved h p) = true ->
  isOutsideAppDir h p = false.
Proof.
  intros H. unfold isOutsideAppDir.
  apply under_dir_startsWith in H. unfold installDir, resolved in H.
  now rewrite H.
Qed.

(** C2: [isOutsideAppDir] must answer [true] for every path that
    resolves outside the installation directory, sibling directories
    whose name extends the directory's name included.  With the
    application in [/opt/drawio], the file
    [/opt/drawio-evil/file.drawio] is not under the installation
    directory, and [isOutsideAppDir] answers [false] for it. *)
Theorem isOutsideAppDir_sibling_misclassified :
  installDir packaged = js "/opt/drawio" /\
  resolved packaged (js "/opt/drawio-evil/file.drawio")
    = js "/opt/drawio-evil/file.drawio" /\
  under_dir (installDir packaged)
    (resolved packaged (js "/opt/drawio-evil/file.drawio")) = false /\
  isOutsideAppDir packaged (js "/opt/drawio-evil/file.drawio") = false /\
  isOutsideAppDir unpackaged (js "/opt/drawio-evil/file.drawio") = false.
Proof. repeat split; vm_compute; reflexivity. Qed.

(** C8, as stated, fails: a path that contains [..] and resolves into an
    allowed directory is accepted. *)
Lemma isValidPath_dotdot_accepted :
  includes (js "/home/user/documents/a/../file.drawio") (js "..") = true /\
  isValidPath packaged (js "/home/user/documents/a/../file.drawio")
    [js "/home/user/documents"] = true.
Proof. split; vm_compute; reflexivity. Qed.

(** C8, amended: [isValidPath] looks for the suspicious substrings in
    the resolved path.  It answers [true] only if the path has at most
    4096 characters, its resolved form has no suspicious substring and
    begins with the resolved form of an allowed prefix; it answers
    [true] whenever, in addition, the resolved form lies under that
    prefix; and it answers [false] for every path whose resolved form
    still contains [..]. *)
Theorem isValidPath_characterised (h : Host) (p : jsstring)
    (allowedPrefixes : list jsstring) :
  (isValidPath h p allowedPrefixes = true ->
     (length p <= 4096)%nat /\
     unsuspicious (resolved h p) = true /\
     exists prefix, In prefix allowedPrefixes /\
       startsWith (resolved h p) (Path.resolve (cwd h) prefix) = true) /\
  ((length p <= 4096)%nat ->
   unsuspicious (resolved h p) = true ->
   (exists prefix, In prefix allowedPrefixes /\
      under_dir (Path.resolve (cwd h) prefix) (resolved h p) = true) ->
   isValidPath h p allowedPrefixes = true) /\
  (includes (resolved h p) (js "..") = true ->
   isValidPath h p allowedPrefixes = false).
Proof.
  unfold isValidPath, unsuspicious, resolved, MAX_PATH_LENGTH.
  repeat split.
  - destruct (4096 <? length p)%nat eqn:E; [discriminate|].
    apply Nat.ltb_ge in E. lia.
  - destruct (4096 <? length p)%nat; [discriminate|].
    destruct (existsb _ SUSPICIOUS_PATTERNS); [discriminate|reflexivity].
  - destruct (4096 <? length p)%nat; [discriminate|].
    destruct (existsb _ SUSPICIOUS_PATTERNS); [discriminate|].
    destruct (existsb _ allowedPrefixes) eqn:E; [|discriminate].
    apply existsb_exists in E as (prefix & Hin & Hp). eauto.
  - intros Hlen Hclean (prefix & Hin & Hunder).
    assert ((4096 <? length p)%nat = false) as -> by (apply Nat.ltb_ge; lia).
    apply negb_true_iff in Hclean. rewrite Hclean.
    assert (existsb
              (fun prefix0 =>
                 startsWith (Path.resolve (cwd h) (normalizePath p))
                   (Path.resolve (cwd h) prefix0)) allowedPrefixes = true) as ->;
      [|reflexivity].
    apply existsb_exists. exists prefix. split; [assumption|].
    now apply under_dir_startsWith.
  - intros Hdots. destruct (4096 <? length p)%nat; [reflexivity|].
    assert (existsb (fun pattern => test pattern (Path.resolve (cwd h) (normalizePath p)))
              SUSPICIOUS_PATTERNS = true) as ->; [|reflexivity].
    apply existsb_exists. exists (Lit (js "..")).
    split; [left; reflexivity | exact Hdots].
Qed.

Lemma isValidPath_characterised_witness :
  isValidPath packaged (js "/home/user/documents/file.drawio")
    [js "/home/user/documents"] = true /\
  isValidPath packaged (js "/home/user/a..b") [js "/home/user"] = false.
Proof.
  split.
  - apply (isValidPath_characterised packaged
             (js "/home/user/documents/file.drawio") [js "/home/user/documents"]).
    + simpl; lia.
    + vm_compute; reflexivity.
    + exists (js "/home/user/documents"). split; [left; reflexivity|].
      vm_compute; reflexivity.
  - apply (isValidPath_characterised packaged (js "/home/user/a..b")
             [js "/home/user"]).
    vm_compute; reflexivity.
Defined.

End PathValidatorProofs.

(* ===================================================================== *)
(** * Properties of the content sniffer *)
(* ===================================================================== *)

Module SnifferProofs.
Import Sniffer Spec.

Lemma if_true_orb (a b : bool) : (if a then true else b) = a || b.
Proof. now destruct a. Qed.

(** The chain of tests of [checkFileContent] and the table of magic
    prefixes describe the same set of heads. *)
Lemma checkFileContent_recognized (b : body) (enc : option jsstring) :
  checkFileContent b enc = recognized b enc.
Proof.
  unfold checkFileContent, recognized.
  destruct (heads b enc) as [[c cc]|]; [|reflexivity].
  unfold MAGIC_PREFIXES, MARKUP, BOM_PREFIXED, PDF, PNG, JPEG, WEBP, ZIP, JSON.
  cbn [app existsb matches forallb holds].
  rewrite !if_true_orb.
  rewrite !andb_true_r, !orb_false_r.
  rewrite !andb_orb_distrib_r.
  rewrite !andb_assoc, !orb_assoc.
  reflexivity.
Qed.

(** A signature of the table that matches makes the content
    recognised. *)
Lemma recognized_by (signature : list probe) (c cc : list N) :
  In signature MAGIC_PREFIXES ->
  matches c cc signature = true ->
  existsb (matches c cc) MAGIC_PREFIXES = true.
Proof. intros Hin Hm. apply existsb_exists. eauto. Qed.

Ltac in_table := unfold MAGIC_PREFIXES; cbn; tauto.

(** C6: [checkFileContent] is a fail-closed allow-list.  It accepts
    exactly the content whose sniffed head matches one of the magic
    prefixes, so content that matches none of them is rejected; it
    accepts a sample of every recognised format; and it accepts all
    content that begins with the bytes 25 50 44 46 (PDF) or
    89 50 4E 47 (PNG), given as bytes or as a string of these code
    units. *)
Theorem checkFileContent_allow_list :
  (forall b enc, checkFileContent b enc = recognized b enc) /\
  (forall b enc, recognized b enc = false -> checkFileContent b enc = false) /\
  checkFileContent BNull None = false /\
  Forall (fun sample => checkFileContent (BBytes sample) None = true)
    CANONICAL_SAMPLES /\
  (forall rest enc,
     checkFileContent (BBytes (0x25 :: 0x50 :: 0x44 :: 0x46 :: rest)) enc = true) /\
  (forall rest enc,
     checkFileContent (BBytes (0x89 :: 0x50 :: 0x4e :: 0x47 :: rest)) enc = true) /\
  (forall rest,
     checkFileContent (BString (0x25 :: 0x50 :: 0x44 :: 0x46 :: rest)) None = true) /\
  (forall rest,
     checkFileContent (BString (0x89 :: 0x50 :: 0x4e :: 0x47 :: rest)) None = true).
Proof.
  split; [exact checkFileContent_recognized|].
  split; [intros b enc H; now rewrite checkFileContent_recognized|].
  split; [reflexivity|].
  split.
  { unfold CANONICAL_SAMPLES.
    repeat (constructor; [vm_compute; reflexivity|]).
    constructor. }
  (* the four leading bytes are given: the tests up to the PDF and PNG
     branches evaluate *)
  repeat split; intros; reflexivity.
Qed.

Lemma checkFileContent_allow_list_witness :
  recognized (BString (js "hello world")) None = false /\
  checkFileContent (BString (js "hello world")) None = false.
Proof.
  split; [reflexivity|].
  apply (proj1 (proj2 checkFileContent_allow_list)). reflexivity.
Defined.

(** C10, as stated, fails: with the encoding ['base64'] the head that is
    sniffed is the decoded prefix, and the text [{}] decodes to nothing. *)
Lemma checkFileContent_brace_base64_rejected :
  brace_initial (js "{}") = true /\
  checkFileContent (BString (js "{}")) (Some (js "base64")) = false.
Proof. split; reflexivity. Qed.

(** C10, amended: for every string content passed with an encoding
    other than ['base64'] whose first character is an opening brace or
    bracket, [checkFileContent] returns [true] whatever follows. *)
Theorem checkFileContent_brace_initial (s : jsstring) (enc : option jsstring) :
  is_base64 enc = false ->
  brace_initial s = true ->
  checkFileContent (BString s) enc = true.
Proof.
  intros Henc Hs. rewrite checkFileContent_recognized.
  unfold recognized, heads. rewrite Henc.
  destruct s as [|c r]; [discriminate|].
  cbn [brace_initial] in Hs. apply orb_true_iff in Hs as [H|H].
  - apply (recognized_by [Chr 0 "{"%char]); [in_table|].
    unfold matches, substring0. cbn [forallb holds at_is firstn nth_error].
    now rewrite H.
  - apply (recognized_by [Chr 0 "["%char]); [in_table|].
    unfold matches, substring0. cbn [forallb holds at_is firstn nth_error].
    now rewrite H.
Qed.

Lemma checkFileContent_brace_initial_witness :
  checkFileContent (BString (js "{ not json at all")) None = true.
Proof.
  apply checkFileContent_brace_initial; reflexivity.
Defined.

End SnifferProofs.

(* ===================================================================== *)
(** * Properties of the filename sanitiser *)
(* ===================================================================== *)

Module SanitizerProofs.
Import Security Spec Tidy.

Lemma filter_all {A} (f : A -> bool) (l : list A) :
  Forall (fun c => f c = true) (List.filter f l).
Proof.
  induction l as [|a l IH]; simpl; [constructor|].
  destruct (f a) eqn:E; [constructor|]; assumption.
Qed.

Lemma filter_keeps {A} (f : A -> bool) (P : A -> Prop) (l : list A) :
  Forall P l -> Forall P (List.filter f l).
Proof.
  induction 1 as [|a l Ha Hl IH]; simpl; [constructor|].
  destruct (f a); [constructor|]; assumption.
Qed.

Lemma filter_id {A} (f : A -> bool) (l : list A) :
  Forall (fun c => f c = true) l -> List.filter f l = l.
Proof.
  induction 1 as [|a l Ha Hl IH]; simpl; [reflexivity|].
  rewrite Ha. now f_equal.
Qed.

Lemma Forall_prefix {A} (P : A -> Prop) (l1 l2 : list A) :
  Forall P (l1 ++ l2) -> Forall P l1.
Proof.
  induction l1 as [|a l1 IH]; simpl; intros H; [constructor|].
  inversion H; subst. constructor; auto.
Qed.

Lemma Forall_suffix {A} (P : A -> Prop) (l1 l2 : list A) :
  Forall P (l1 ++ l2) -> Forall P l2.
Proof. induction l1 as [|a l1 IH]; simpl; intros H; [assumption|]. inversion H; auto. Qed.

(** ** The stripped characters *)

Lemma stripped_plain (x : jsstring) :
  Forall plain
    (List.filter (fun c => negb (is_dangerous c))
       (List.filter (fun c => negb (is_separator c)) x)).
Proof.
  pose proof (filter_all (fun c => negb (is_dangerous c))
                (List.filter (fun c => negb (is_separator c)) x)) as H2.
  pose proof (filter_keeps (fun c => negb (is_dangerous c))
                (fun c => negb (is_separator c) = true) _
                (filter_all (fun c => negb (is_separator c)) x)) as H1.
  rewrite Forall_forall in *. intros c Hc. split; auto.
Qed.

Lemma blank_plain : plain 32.
Proof. split; reflexivity. Qed.

(** ** Collapsing *)

Lemma collapse_plain (b : bool) (l : jsstring) :
  Forall plain l -> Forall plain (collapse_spaces b l).
Proof.
  intros H. revert b. induction H as [|c r Hc Hr IH]; intros b; simpl;
    [constructor|].
  destruct (is_space c); [destruct b|]; auto using blank_plain.
Qed.

Lemma collapse_spaced (b : bool) (l : jsstring) :
  spaced b (collapse_spaces b l).
Proof.
  revert b. induction l as [|c r IH]; intros b; simpl; [exact I|].
  destruct (is_space c) eqn:E.
  - destruct b; [apply IH|]. simpl. auto.
  - simpl. rewrite E. apply IH.
Qed.

Lemma collapse_id (b : bool) (l : jsstring) :
  spaced b l -> collapse_spaces b l = l.
Proof.
  revert b. induction l as [|c r IH]; intros b; simpl; [reflexivity|].
  destruct (is_space c).
  - intros (-> & -> & H). f_equal. now apply IH.
  - intros H. f_equal. now apply IH.
Qed.

(** ** Trimming *)

Lemma spaced_weaken (b : bool) (l : jsstring) : spaced b l -> spaced false l.
Proof.
  destruct l as [|c r]; simpl; [auto|].
  destruct (is_space c); tauto.
Qed.

Lemma spaced_prefix (b : bool) (l1 l2 : jsstring) :
  spaced b (l1 ++ l2) -> spaced b l1.
Proof.
  revert b. induction l1 as [|c r IH]; intros b; simpl; [auto|].
  destruct (is_space c).
  - intros (? & ? & H). eauto.
  - eauto.
Qed.

Lemma trimStart_suffix (l : jsstring) : exists p, l = p ++ trimStart l.
Proof.
  induction l as [|c r [p Hp]]; simpl.
  - now exists [].
  - destruct (is_space c).
    + exists (c :: p). simpl. now f_equal.
    + now exists [].
Qed.

Lemma trimEnd_prefix (l : jsstring) : exists s, l = trimEnd l ++ s.
Proof.
  unfold trimEnd. destruct (trimStart_suffix (rev l)) as [p Hp].
  exists (rev p). rewrite <- rev_app_distr, <- Hp. symmetry. apply rev_involutive.
Qed.

Lemma trimStart_spaced (b : bool) (l : jsstring) :
  spaced b l -> spaced true (trimStart l).
Proof.
  revert b. induction l as [|c r IH]; intros b; simpl; [auto|].
  destruct (is_space c) eqn:E.
  - intros (_ & _ & H). eauto.
  - intros H. simpl. now rewrite E.
Qed.

Lemma trim_spaced (b : bool) (l : jsstring) :
  spaced b l -> spaced true (trim l).
Proof.
  intros H. unfold trim.
  destruct (trimEnd_prefix (trimStart l)) as [s Hs].
  apply trimStart_spaced in H. rewrite Hs in H.
  now apply spaced_prefix in H.
Qed.

Lemma trim_plain (l : jsstring) : Forall plain l -> Forall plain (trim l).
Proof.
  intros H. unfold trim.
  destruct (trimStart_suffix l) as [p Hp]. rewrite Hp in H.
  apply Forall_suffix in H.
  destruct (trimEnd_prefix (trimStart l)) as [s Hs]. rewrite Hs in H.
  now apply Forall_prefix in H.
Qed.

Lemma trimStart_id (l : jsstring) : spaced true l -> trimStart l = l.
Proof.
  destruct l as [|c r]; simpl; [reflexivity|].
  destruct (is_space c); [intros (? & _); discriminate | reflexivity].
Qed.

Lemma trimEnd_id (l : jsstring) : ends_with_space l = false -> trimEnd l = l.
Proof.
  unfold ends_with_space, trimEnd. intros H.
  destruct (rev l) as [|c r] eqn:E.
  - simpl. rewrite <- (rev_involutive l), E. reflexivity.
  - simpl. rewrite H. rewrite <- E. apply rev_involutive.
Qed.

Lemma sanitizeFilename_unfold (x : jsstring) :
  sanitizeFilename x = fallback (truncated x).
Proof.
  unfold sanitizeFilename, fallback, truncated, substring0. fold (core x).
  destruct (255 <? length (core x))%nat eqn:E; [reflexivity|].
  apply Nat.ltb_ge in E. rewrite firstn_all2 by exact E. reflexivity.
Qed.

Lemma core_tidy (x : jsstring) : spaced true (core x) /\ Forall plain (core x).
Proof.
  unfold core. split.
  - apply (trim_spaced false), collapse_spaced.
  - apply trim_plain, collapse_plain, stripped_plain.
Qed.

Lemma truncated_tidy (x : jsstring) :
  spaced true (truncated x) /\ Forall plain (truncated x).
Proof.
  destruct (core_tidy x) as [Hs Hp]. unfold truncated.
  rewrite <- (firstn_skipn 255 (core x)) in Hs, Hp.
  split; [eapply spaced_prefix | eapply Forall_prefix]; eassumption.
Qed.

(** A tidy name that does not end in white space is left alone by the
    replacements and by [trim]. *)
Lemma core_id (t : jsstring) :
  spaced true t -> Forall plain t -> ends_with_space t = false -> core t = t.
Proof.
  intros Hs Hp He. unfold core.
  rewrite (filter_id (fun c => negb (is_separator c)) t)
    by (eapply Forall_impl; [exact Hp|]; intros c [H _]; exact H).
  rewrite (filter_id (fun c => negb (is_dangerous c)) t)
    by (eapply Forall_impl; [exact Hp|]; intros c [_ H]; exact H).
  rewrite collapse_id by (eapply spaced_weaken; exact Hs).
  unfold trim. rewrite trimStart_id by exact Hs. now apply trimEnd_id.
Qed.



Lemma core_trimEnd (t : jsstring) :
  spaced true t -> Forall plain t -> core t = trimEnd t.
Proof.
  intros Hs Hp. unfold core.
  rewrite (filter_id (fun c => negb (is_separator c)) t)
    by (eapply Forall_impl; [exact Hp|]; intros c [H _]; exact H).
  rewrite (filter_id (fun c => negb (is_dangerous c)) t)
    by (eapply Forall_impl; [exact Hp|]; intros c [_ H]; exact H).
  rewrite collapse_id by (eapply spaced_weaken; exact Hs).
  unfold trim. now rewrite trimStart_id by exact Hs.
Qed.

Lemma trimEnd_shorter (t : jsstring) :
  ends_with_space t = true -> (length (trimEnd t) < length t)%nat.
Proof.
  unfold ends_with_space, trimEnd. intros H.
  rewrite length_rev, <- (length_rev t).
  destruct (rev t) as [|c r]; [discriminate|].
  simpl. rewrite H.
  destruct (trimStart_suffix r) as [q Hq].
  rewrite Hq at 2. rewrite length_app. lia.
Qed.

(** The amendment is tight: a sanitised name that ends in white space
    is changed by a second pass. *)
Lemma sanitizeFilename_trailing_space_changes (x : jsstring) :
  ends_with_space (sanitizeFilename x) = true ->
  sanitizeFilename (sanitizeFilename x) <> sanitizeFilename x.
Proof.
  rewrite (sanitizeFilename_unfold x). unfold fallback.
  destruct (match truncated x with [] => true | _ => false end
            || only_dots (truncated x)) eqn:E.
  - intros He. vm_compute in He. discriminate He.
  - intros He. rewrite sanitizeFilename_unfold.
    destruct (truncated_tidy x) as [Hs Hp].
    unfold truncated at 1. rewrite (core_trimEnd _ Hs Hp).
    pose proof (trimEnd_shorter _ He) as Hlen.
    unfold fallback. set (t2 := firstn 255 (trimEnd (truncated x))).
    destruct (match t2 with [] => true | _ => false end || only_dots t2).
    + intros Heq. rewrite <- Heq in He. vm_compute in He. discriminate He.
    + intros Heq. apply (f_equal (@length N)) in Heq.
      unfold t2 in Heq. rewrite length_firstn in Heq. lia.
Qed.


End SanitizerProofs.

(* ===================================================================== *)
(** * Properties of the file store *)
(* ===================================================================== *)

Module FileServiceProofs.
Import Host FileService Runs.
Local Open Scope eff_scope.

(** ** Drafts *)

(** With one draft, no second one and no legacy draft, nothing is
    returned: the loop that reads the drafts starts at index 1. *)
Lemma getFileDrafts_single_draft_dropped (fo : FileObject) (w : World)
    (f : File) (fuel : nat) :
  files w !! draftSibling DRAFT_PREFEX (path fo) [] = Some f ->
  files w !! draftSibling DRAFT_PREFEX (path fo) (js "_1") = None ->
  files w !! draftSibling OLD_DRAFT_PREFEX (path fo) [] = None ->
  getFileDrafts (2 + fuel) fo w = (Ok (Some []), w).
Proof.
  intros H0 H1 Hold.
  assert (E0 : existsSync (draftSibling DRAFT_PREFEX (path fo) []) w = (Ok true, w)).
  { unfold existsSync. rewrite H0. now rewrite bool_decide_eq_true_2 by eauto. }
  assert (E1 : existsSync (draftSibling DRAFT_PREFEX (path fo) (js "_1")) w
               = (Ok false, w)).
  { unfold existsSync. rewrite H1.
    now rewrite bool_decide_eq_false_2 by (intros [? ?]; discriminate). }
  assert (E2 : existsSync (draftSibling OLD_DRAFT_PREFEX (path fo) []) w
               = (Ok false, w)).
  { unfold existsSync. rewrite Hold.
    now rewrite bool_decide_eq_false_2 by (intros [? ?]; discriminate). }
  unfold getFileDrafts. cbn [Nat.add].
  unfold bind at 1. cbn [findDrafts]. unfold bind at 1. rewrite E0.
  cbn [findDrafts]. unfold bind at 1.
  change (js "_" ++ num_to_js 1) with (js "_1"). rewrite E1.
  cbn [ret app]. unfold bind at 1. cbn [migrateDrafts].
  unfold bind at 1. rewrite E2. reflexivity.
Qed.

(** C7: draft enumeration must return a record for every existing
    draft.  For the diagram [/home/u/d.drawio] with exactly one draft,
    [/home/u/.$d.drawio.dtmp], [getFileDrafts] returns the empty list. *)
Theorem getFileDrafts_skips_first_draft (fuel : nat) :
  draftSibling DRAFT_PREFEX (path diagram) [] = js "/home/u/.$d.drawio.dtmp" /\
  fst (existsSync (js "/home/u/.$d.drawio.dtmp") one_draft) = Ok true /\
  getFileDrafts (2 + fuel) diagram one_draft = (Ok (Some []), one_draft).
Proof.
  split; [vm_compute; reflexivity|].
  split; [vm_compute; reflexivity|].
  apply (getFileDrafts_single_draft_dropped diagram one_draft
           {| content := js "<mxfile/>"; stats := stat5 |});
    vm_compute; reflexivity.
Qed.

(** ** The write closure *)

(** A target that cannot be opened: the closure throws at once. *)
Lemma writeFile_closure_readonly (p d old : jsstring) (bc : bool) (rc : nat)
    (w : World) :
  p ∈ readonly w ->
  writeFile_closure p d old bc rc w = (Throw (SystemError (js "EACCES") p), w).
Proof.
  intros Hro. simp writeFile_closure.
  unfold bind, attempt, open. rewrite decide_True by exact Hro. reflexivity.
Qed.

(** One pass through the closure: a durable write, the read-back, then
    either the clean-up, or a delay and the next pass, or the final
    error. *)
Lemma writeFile_closure_step (p d old : jsstring) (bc : bool) (rc : nat)
    (w : World) :
  p ∉ readonly w ->
  writeFile_closure p d old bc rc w =
    if decide (d <> landed d w) then
      if lt_dec (S rc) 3
      then writeFile_closure p d old bc (S rc)
             (after_sleep (100 * Z.of_nat (S rc)) (after_attempt p d w))
      else (Throw (verification_failed p), after_attempt p d w)
    else (Ok (stats (written (landed d w) (now w))),
          after_cleanup bc old (after_attempt p d w)).
Proof.
  intros Hro. rewrite (writeFile_closure_equation_1 p d old bc rc w).
  unfold bind, attempt, open, finally, throw, ret.
  rewrite decide_False by exact Hro.
  unfold writeFh, sync, close, stat, readFile, log, set_files.
  cbn [files readonly medium now trace].
  rewrite lookup_insert_eq.
  cbn [files readonly medium now trace].
  rewrite lookup_insert_eq.
  cbn [files readonly medium now trace stats content written].
  fold (landed d w).
  destruct (decide (d <> landed d w)) as [Hne|Heq].
  - destruct (lt_dec (S rc) 3); reflexivity.
  - unfold after_cleanup, existsSync, unlink_ignore, after_attempt, log, set_files.
    cbn [files readonly medium now trace].
    destruct bc; [|reflexivity].
    cbn [andb].
    destruct (bool_decide _); reflexivity.
Qed.

Lemma count_writes_app (p : jsstring) (a b : list Event) :
  count_writes p (a ++ b) = (count_writes p a + count_writes p b)%nat.
Proof.
  induction a as [|e a IH]; [reflexivity|].
  destruct e; simpl; try exact IH.
  destruct (decide _); simpl; now rewrite IH.
Qed.

Lemma sleeps_app (a b : list Event) : sleeps (a ++ b) = sleeps b ++ sleeps a.
Proof.
  induction a as [|e a IH]; simpl; [now rewrite app_nil_r|].
  destruct e; try exact IH.
  rewrite IH. now rewrite <- app_assoc.
Qed.

Lemma last_read_back_app (p : jsstring) (a b : list Event) (x : jsstring) :
  last_read_back p a = Some x -> last_read_back p (a ++ b) = Some x.
Proof.
  induction a as [|e a IH]; simpl; [discriminate|].
  destruct e; try exact IH.
  destruct (decide _); auto.
Qed.

Lemma last_read_back_app_None (p : jsstring) (a b : list Event) :
  last_read_back p a = None ->
  last_read_back p (a ++ b) = last_read_back p b.
Proof.
  induction a as [|e a IH]; simpl; [reflexivity|].
  destruct e; try exact IH.
  destruct (decide _); [discriminate | exact IH].
Qed.

(** The log of one attempt, most recent entry first. *)
Lemma attempt_log (p d : jsstring) (w : World) :
  trace (after_attempt p d w)
  = [EvRead p (landed d w); EvClose p; EvSync p; EvWrite p d] ++ [EvOpen p]
    ++ trace w.
Proof. reflexivity. Qed.

Lemma cleanup_log (bc : bool) (old : jsstring) (w : World) :
  exists evs,
    trace (after_cleanup bc old w) = evs ++ trace w /\
    count_writes old evs = 0%nat /\ sleeps evs = [] /\
    (forall p, count_writes p evs = 0%nat) /\
    (forall p, last_read_back p evs = None) /\
    readonly (after_cleanup bc old w) = readonly w /\
    (forall p, old <> p -> files (after_cleanup bc old w) !! p = files w !! p).
Proof.
  unfold after_cleanup.
  destruct (bc && bool_decide _).
  - exists [EvUnlink old]. cbn. repeat split; auto.
    intros p Hp. now apply lookup_delete_ne.
  - exists []. repeat split; auto.
Qed.

(** The runs of the closure entered with [retryCount = rc], when [k]
    attempts remain. *)
Lemma writeFile_closure_runs (p d old : jsstring) (bc : bool) (k : nat) :
  forall (rc : nat) (w : World) (r : Outcome Stats) (w' : World),
    (rc + k = 3)%nat -> (1 <= k)%nat ->
    p ∉ readonly w ->
    writeFile_closure p d old bc rc w = (r, w') ->
    exists evs,
      trace w' = evs ++ trace w /\
      (exists later, evs = later ++ [EvOpen p]) /\
      (1 <= count_writes p evs <= k)%nat /\
      sleeps evs
      = List.map (fun i => (100 * Z.of_nat i)%Z)
          (seq (S rc) (count_writes p evs - 1)) /\
      match r with
      | Ok st =>
          last_read_back p evs = Some d /\
          exists t, st = stats (written d t) /\
            (old <> p -> files w' !! p = Some (written d t))
      | Throw e =>
          e = verification_failed p /\ count_writes p evs = k /\
          exists x, last_read_back p evs = Some x /\ x <> d
      end.
Proof.
  induction k as [|k IH]; intros rc w r w' Hk Hk1 Hro Hrun; [lia|].
  rewrite writeFile_closure_step in Hrun by exact Hro.
  assert (Hblock : count_writes p
            [EvRead p (landed d w); EvClose p; EvSync p; EvWrite p d; EvOpen p]
          = 1%nat).
  { cbn. now rewrite decide_True. }
  destruct (decide (d <> landed d w)) as [Hne|Heq].
  - destruct (lt_dec (S rc) 3) as [Hlt|Hge].
    + (* a delay, then the next attempt *)
      apply IH in Hrun; [|lia|lia|exact Hro].
      destruct Hrun as (evs & Htr & (later & Hlater) & Hcount & Hsl & Hr).
      exists (evs ++ EvSleep (100 * Z.of_nat (S rc))
                :: [EvRead p (landed d w); EvClose p; EvSync p; EvWrite p d;
                    EvOpen p]).
      split.
      { rewrite Htr. cbn [trace after_sleep after_attempt].
        now rewrite <- app_assoc. }
      split.
      { exists (evs ++ EvSleep (100 * Z.of_nat (S rc))
                  :: [EvRead p (landed d w); EvClose p; EvSync p; EvWrite p d]).
        now rewrite <- app_assoc. }
      rewrite count_writes_app. cbn [count_writes].
      rewrite decide_True by reflexivity.
      split; [lia|].
      split.
      { rewrite sleeps_app, Hsl. cbn [sleeps app].
        replace (count_writes p evs + 1 - 1)%nat
          with (S (count_writes p evs - 1)) by lia.
        reflexivity. }
      destruct r as [st|e].
      * destruct Hr as (Hlast & t & Hst & Hfile).
        split; [now apply last_read_back_app|]. eauto.
      * destruct Hr as (He & Hc & x & Hx & Hxd).
        split; [exact He|]. split; [lia|].
        exists x. split; [now apply last_read_back_app | exact Hxd].
    + (* the third mismatch *)
      injection Hrun as <- <-.
      exists [EvRead p (landed d w); EvClose p; EvSync p; EvWrite p d; EvOpen p].
      split; [reflexivity|].
      split; [now exists [EvRead p (landed d w); EvClose p; EvSync p; EvWrite p d]|].
      rewrite Hblock. split; [lia|]. split; [reflexivity|].
      split; [reflexivity|]. split; [lia|].
      exists (landed d w). split; [cbn; now rewrite decide_True|].
      intros E. apply Hne. now symmetry.
  - (* the read-back is the data *)
    injection Hrun as <- <-.
    assert (Hd : landed d w = d).
    { destruct (decide (landed d w = d)) as [E|E]; [exact E|].
      exfalso. apply Heq. intros E'. apply E. now symmetry. }
    destruct (cleanup_log bc old (after_attempt p d w))
      as (evs & Htr & _ & Hsl & Hcw & Hlr & _ & Hfiles).
    exists (evs ++ [EvRead p (landed d w); EvClose p; EvSync p; EvWrite p d;
                    EvOpen p]).
    split; [rewrite Htr, attempt_log; now rewrite <- app_assoc|].
    split.
    { exists (evs ++ [EvRead p (landed d w); EvClose p; EvSync p; EvWrite p d]).
      now rewrite <- app_assoc. }
    rewrite count_writes_app, Hcw, Hblock.
    split; [lia|].
    split; [rewrite sleeps_app, Hsl; reflexivity|].
    split.
    { rewrite last_read_back_app_None by apply Hlr.
      cbn. rewrite decide_True by reflexivity. now rewrite Hd. }
    exists (now w). rewrite Hd. split; [reflexivity|].
    intros Hold. rewrite Hfiles by exact Hold.
    cbn [files after_attempt]. rewrite Hd. apply lookup_insert_eq.
Qed.

(** ** Saving *)

Lemma validateFileSize_pure (p : jsstring) (w : World) :
  validateFileSize p w = (Ok (within_cap p w), w).
Proof.
  unfold validateFileSize, within_cap, bind, existsSync, attempt, stat, ret.
  destruct (files w !! p) as [f|] eqn:E.
  - rewrite bool_decide_eq_true_2 by eauto. cbv beta iota. cbn [negb].
    rewrite E. destruct (_ <? _)%Z; reflexivity.
  - rewrite bool_decide_eq_false_2 by (intros [? ?]; discriminate).
    reflexivity.
Qed.

(** The backup block never throws, and only adds to the log. *)
Lemma createBackup_total (env : Env) (p bkp : jsstring) (w : World) :
  exists b w1 evs,
    createBackup env p bkp w = (Ok b, w1) /\ trace w1 = evs ++ trace w.
Proof.
  unfold createBackup, bind, attempt, readFile, open, finally, writeFh, sync,
    close, spawn, ret, log, set_files.
  destruct (files w !! p) as [f|].
  - cbn [readonly]. destruct (decide (bkp ∈ readonly w)).
    + exists false. eexists. exists [EvRead p (content f)]. split; reflexivity.
    + destruct (isWin env).
      * exists true. eexists.
        exists [EvClose bkp; EvSpawn (js "attrib") [js "+h"; bkp]; EvSync bkp;
                EvWrite bkp (content f); EvOpen bkp; EvRead p (content f)].
        split; reflexivity.
      * exists true. eexists.
        exists [EvClose bkp; EvSync bkp; EvWrite bkp (content f); EvOpen bkp;
                EvRead p (content f)].
        split; reflexivity.
  - exists false, w, []. split; reflexivity.
Qed.

(** With the target on disk and a sibling that can be written, the
    backup is made: the prior content is read and written durably. *)
Lemma createBackup_done (env : Env) (p : jsstring) (w : World) (f : File) :
  files w !! p = Some f ->
  bkpPath p ∉ readonly w ->
  exists w1,
    createBackup env p (bkpPath p) w = (Ok true, w1) /\
    trace w1 = backup_log env p (content f) ++ trace w.
Proof.
  intros Hf Hro.
  unfold createBackup, bind, attempt, readFile, open, finally, writeFh, sync,
    close, spawn, ret, log, set_files, backup_log.
  rewrite Hf. cbn [readonly]. rewrite decide_False by exact Hro.
  destruct (isWin env); eexists; split; reflexivity.
Qed.

(** [saveFile] as a chain of gates before [doSaveFile]. *)
Lemma saveFile_gates (env : Env) (fo : FileObject) (d : jsstring)
    (orig : option Stats) (overwrite : bool) (enc : option jsstring)
    (en : bool) (w : World) :
  saveFile env fo d orig overwrite enc en w =
    if negb (Security.isOutsideAppDir (host env) (path fo)) then
      (Throw (FileError (js "Cannot save to application directory")
                SECURITY_VIOLATION (path fo)), w)
    else if negb (Sniffer.checkFileContent (Sniffer.BString d) None)
            || negb (Security.validateFileContent d) then
      (Throw (FileError (js "Invalid file data") FILE_INVALID (path fo)), w)
    else if negb (within_cap (path fo) w) then
      (Throw (FileError (js "File too large") FILE_TOO_LARGE (path fo)), w)
    else if overwrite then
      doSaveFile env (path fo) d (bkpPath (path fo)) (oldBkpPath (path fo))
        en true w
    else
      match files w !! path fo with
      | Some f =>
          if isConflict orig (Some (stats f)) then
            (Throw (FileError (js "File conflict detected") FILE_CONFLICT
                      (path fo)), w)
          else
            doSaveFile env (path fo) d (bkpPath (path fo))
              (oldBkpPath (path fo)) en false w
      | None =>
          doSaveFile env (path fo) d (bkpPath (path fo)) (oldBkpPath (path fo))
            en true w
      end.
Proof.
  unfold saveFile.
  destruct (negb (Security.isOutsideAppDir _ _)); [reflexivity|].
  destruct (negb (Sniffer.checkFileContent _ _) || _); [reflexivity|].
  unfold bind at 1. rewrite validateFileSize_pure.
  destruct (negb (within_cap _ _)); [reflexivity|].
  destruct overwrite; [reflexivity|].
  unfold bind, existsSync, stat, ret, throw.
  fold (bkpPath (path fo)). fold (oldBkpPath (path fo)).
  destruct (files w !! path fo) as [f|] eqn:E.
  - rewrite bool_decide_eq_true_2 by eauto. rewrite E. cbn [andb].
    destruct (isConflict orig (Some (stats f))); reflexivity.
  - rewrite bool_decide_eq_false_2 by (intros [? ?]; discriminate).
    reflexivity.
Qed.

(** A save that succeeds went through the closure, and the closure
    succeeded. *)
Lemma doSaveFile_Ok (env : Env) (p d bkp old : jsstring) (en isNew : bool)
    (w : World) (st : Stats) (w' : World) :
  doSaveFile env p d bkp old en isNew w = (Ok st, w') ->
  exists bc w1 evs,
    trace w1 = evs ++ trace w /\
    (p ∉ readonly w1) /\
    writeFile_closure p d old bc 0 w1 = (Ok st, w').
Proof.
  unfold doSaveFile, bind. intros H.
  assert (exists bc w1 evs,
            (if en && negb isNew then createBackup env p bkp else ret false) w
            = (Ok bc, w1) /\ trace w1 = evs ++ trace w)
    as (bc & w1 & evs & Hb & Htr).
  { destruct (en && negb isNew).
    - apply createBackup_total.
    - exists false, w, []. split; reflexivity. }
  rewrite Hb in H. exists bc, w1, evs. split; [exact Htr|].
  destruct (decide (p ∈ readonly w1)) as [Hro|Hro]; [|split; assumption].
  rewrite writeFile_closure_readonly in H by exact Hro. discriminate H.
Qed.

Lemma saveFile_Ok (env : Env) (fo : FileObject) (d : jsstring)
    (orig : option Stats) (overwrite : bool) (enc : option jsstring)
    (en : bool) (w : World) (st : Stats) (w' : World) :
  saveFile env fo d orig overwrite enc en w = (Ok st, w') ->
  exists isNew,
    doSaveFile env (path fo) d (bkpPath (path fo)) (oldBkpPath (path fo))
      en isNew w = (Ok st, w').
Proof.
  rewrite saveFile_gates.
  repeat (match goal with
          | |- context [if ?c then _ else _] => destruct c
          | |- context [match ?c with Some _ => _ | None => _ end] => destruct c
          end; try discriminate); eauto.
Qed.

(** C3, as stated, fails: a save whose content fails the allow-list is
    rejected as invalid before the stat is compared, also when the file
    on disk has changed. *)
Lemma saveFile_invalid_before_conflict :
  files disk !! path diagram
    = Some {| content := js "<mxfile/>"; stats := stat5 |} /\
  mtimeMs stat5 <> 4%Z /\
  saveFile linux diagram (js "hello")
    (Some {| mtimeMs := 4; ctimeMs := 4; size := 9 |}) false None true disk
  = (Throw (FileError (js "Invalid file data") FILE_INVALID (path diagram)),
     disk).
Proof.
  split; [vm_compute; reflexivity|]. split; [discriminate|].
  vm_compute. reflexivity.
Qed.

(** C3, amended: for every [saveFile] call with [overwrite = false], a
    prior stat and a target on disk whose [mtimeMs] differs from it, the
    call throws and leaves the file system and the log as they were: no
    write and no backup happens.  When the call passes the validation of
    path, content and size, the error is [FILE_CONFLICT]. *)
Theorem saveFile_conflict (env : Env) (fo : FileObject) (d : jsstring)
    (orig : Stats) (enc : option jsstring) (en : bool) (w : World) (f : File) :
  files w !! path fo = Some f ->
  mtimeMs (stats f) <> mtimeMs orig ->
  (exists e, saveFile env fo d (Some orig) false enc en w = (Throw e, w)) /\
  (passes_validation env fo d w = true ->
   saveFile env fo d (Some orig) false enc en w
   = (Throw (FileError (js "File conflict detected") FILE_CONFLICT (path fo)),
      w)).
Proof.
  intros Hf Hm. rewrite saveFile_gates, Hf.
  assert (isConflict (Some orig) (Some (stats f)) = true) as ->.
  { unfold isConflict. apply negb_true_iff, Z.eqb_neq. exact Hm. }
  split.
  - repeat (match goal with
            | |- context [if ?c then _ else _] => destruct c
            end); eauto.
  - unfold passes_validation. intros H.
    apply andb_true_iff in H as [H H4]. apply andb_true_iff in H as [H H3].
    apply andb_true_iff in H as [H1 H2].
    rewrite H1, H2, H3, H4. reflexivity.
Qed.

Lemma saveFile_conflict_witness :
  saveFile linux diagram (js "<mxfile>new</mxfile>")
    (Some {| mtimeMs := 4; ctimeMs := 4; size := 9 |}) false None true disk
  = (Throw (FileError (js "File conflict detected") FILE_CONFLICT
              (path diagram)), disk).
Proof.
  apply (saveFile_conflict linux diagram (js "<mxfile>new</mxfile>")
           {| mtimeMs := 4; ctimeMs := 4; size := 9 |} None true disk
           {| content := js "<mxfile/>"; stats := stat5 |}).
  - vm_compute; reflexivity.
  - discriminate.
  - vm_compute; reflexivity.
Defined.






End FileServiceProofs.

(* ===================================================================== *)
(** * Properties of the boundary dispatcher *)
(* ===================================================================== *)

Module HandlersProofs.
Import Security Handlers.

Section Replies.
Context {V X : Type} (svc : Services V X).

Ltac in_list := repeat (first [left; reflexivity | right]).

(** An action name outside the closed set reaches the [default] case
    of the [switch]. *)
Lemma handleAction_unknown (args : Args V) (m : Main X) :
  ~ In (action args) (List.map js ACTIONS) ->
  exists m',
    handleAction svc args m
    = (Throw {| message := js "Unknown action: " ++ action args;
                thrown := None |}, m').
Proof.
  intros Hnot. unfold handleAction, bind.
  destruct (FileService_getAppDataFolder svc (rest m)) as [v x].
  repeat match goal with
         | |- context [case_ args ?s] =>
             replace (case_ args s) with false
               by (symmetry; apply bool_decide_eq_false_2; intros E;
                   apply Hnot; rewrite E; unfold ACTIONS;
                   cbn [List.map In]; in_list)
         end.
  eexists. reflexivity.
Qed.


End Replies.

End HandlersProofs.

(* ===================================================================== *)
(** * Further properties of the validator and the rate limiter *)
(* ===================================================================== *)

Module ValidatorMoreProofs.
Import Security Spec Tidy Usage.

(** X1: the name that [sanitizeFilename] returns is never empty, has at
    most 255 characters, contains no path separator and none of the
    characters it strips, and does not consist of dots only (so it is
    neither [.] nor [..]). *)
Theorem sanitizeFilename_safe (x : jsstring) :
  sanitizeFilename x <> [] /\
  (length (sanitizeFilename x) <= 255)%nat /\
  Forall (fun c => is_separator c = false /\ is_dangerous c = false)
    (sanitizeFilename x) /\
  only_dots (sanitizeFilename x) = false.
Proof.
  rewrite SanitizerProofs.sanitizeFilename_unfold. unfold fallback.
  destruct (match truncated x with [] => true | _ => false end
            || only_dots (truncated x)) eqn:E.
  - split; [discriminate|]. split; [simpl; lia|].
    split; [|reflexivity]. repeat constructor.
  - apply orb_false_iff in E as [E1 E2].
    split; [intros H; rewrite H in E1; discriminate|].
    split; [unfold truncated; rewrite length_firstn; lia|].
    split; [|exact E2].
    destruct (SanitizerProofs.truncated_tidy x) as [_ Hp].
    eapply Forall_impl; [exact Hp|].
    intros c [H1 H2]. split; now apply negb_true_iff.
Qed.

(** X2: a path is valid for the union of two lists of prefixes exactly
    when it is valid for one of them; with no prefix at all nothing is
    valid. *)
Theorem isValidPath_prefixes (h : Host) (p : jsstring)
    (ps qs : list jsstring) :
  isValidPath h p (ps ++ qs) = isValidPath h p ps || isValidPath h p qs /\
  isValidPath h p [] = false.
Proof.
  unfold isValidPath. split.
  - destruct (MAX_PATH_LENGTH <? length p)%nat; [reflexivity|].
    destruct (existsb _ SUSPICIOUS_PATTERNS); [reflexivity|].
    rewrite existsb_app.
    destruct (existsb _ ps), (existsb _ qs); reflexivity.
  - destruct (MAX_PATH_LENGTH <? length p)%nat; [reflexivity|].
    destruct (existsb _ SUSPICIOUS_PATTERNS); reflexivity.
Qed.

(** ** The rate limiter *)

Lemma filter_length_le {A} (f : A -> bool) (l : list A) :
  (length (List.filter f l) <= length l)%nat.
Proof.
  induction l as [|a l IH]; simpl; [lia|]. destruct (f a); simpl; lia.
Qed.

(** X3: what a call of [canProceed] leaves behind.  An accepted call
    stores for its key the entries still inside the window followed by
    the time of the call, at most [maxCalls] entries in all; a rejected
    call changes nothing and means that [maxCalls] entries are inside
    the window.  The histories of the other keys are never touched. *)
Theorem canProceed_outcome (rl : RateLimiter) (key : jsstring) (now : Z) :
  let '(ok, rl') := canProceed rl key now in
  maxCalls rl' = maxCalls rl /\ windowMs rl' = windowMs rl /\
  (forall other, other <> key -> calls rl' !! other = calls rl !! other) /\
  (length (history rl' key) <= Nat.max (maxCalls rl) (length (history rl key)))%nat /\
  if ok then
    history rl' key = recent rl key now ++ [now] /\
    (length (history rl' key) <= maxCalls rl)%nat /\
    Forall (fun t => t = now \/ (now - t < windowMs rl)%Z) (history rl' key)
  else
    rl' = rl /\ (maxCalls rl <= length (recent rl key now))%nat.
Proof.
  unfold canProceed. fold (history rl key). fold (recent rl key now).
  destruct (maxCalls rl <=? length (recent rl key now))%nat eqn:E.
  - apply Nat.leb_le in E. repeat split; auto. lia.
  - apply Nat.leb_gt in E. cbn [maxCalls windowMs calls].
    assert (Hh : history
                   {| calls := <[key:=recent rl key now ++ [now]]> (calls rl);
                      maxCalls := maxCalls rl; windowMs := windowMs rl |} key
                 = recent rl key now ++ [now]).
    { unfold history. cbn [calls]. now rewrite lookup_insert_eq. }
    rewrite Hh. rewrite length_app. cbn [length].
    repeat split.
    + intros other Ho. now apply lookup_insert_ne.
    + lia.
    + lia.
    + apply Forall_app. split.
      * unfold recent. eapply Forall_impl; [apply SanitizerProofs.filter_all|].
        intros t Ht. right. now apply Z.ltb_lt.
      * repeat constructor.
Qed.

Lemma canProceed_seq_burst (key : jsstring) (t0 : Z) (times : list Z) :
  forall rl : RateLimiter,
    Forall (fun t => (t0 <= t < t0 + windowMs rl)%Z) (history rl key) ->
    Forall (fun t => (t0 <= t < t0 + windowMs rl)%Z) times ->
    fst (canProceed_seq rl key times)
    = burst_answers (maxCalls rl - length (history rl key)) (length times).
Proof.
  induction times as [|now later IH]; intros rl Hh Ht; [reflexivity|].
  inversion Ht as [|? ? Hnow Hlater]; subst. cbv beta in Hnow.
  cbn [canProceed_seq].
  assert (Hrecent : recent rl key now = history rl key).
  { unfold recent. apply SanitizerProofs.filter_id.
    eapply Forall_impl; [exact Hh|]. intros t Htw. cbv beta in Htw. apply Z.ltb_lt. lia. }
  unfold canProceed. fold (history rl key). fold (recent rl key now).
  rewrite Hrecent.
  destruct (maxCalls rl <=? length (history rl key))%nat eqn:E.
  - apply Nat.leb_le in E.
    specialize (IH rl Hh Hlater).
    destruct (canProceed_seq rl key later) as [oks rl2]. cbn [fst] in *.
    rewrite IH. unfold burst_answers.
    replace (maxCalls rl - length (history rl key))%nat with 0%nat by lia.
    rewrite !Nat.min_0_r, !Nat.sub_0_r. reflexivity.
  - apply Nat.leb_gt in E.
    set (rl1 := {| calls := <[key:=history rl key ++ [now]]> (calls rl);
                   maxCalls := maxCalls rl; windowMs := windowMs rl |}).
    assert (Hh1 : history rl1 key = history rl key ++ [now]).
    { unfold history, rl1. cbn [calls]. now rewrite lookup_insert_eq. }
    assert (Hin : Forall (fun t => (t0 <= t < t0 + windowMs rl1)%Z)
                    (history rl1 key)).
    { rewrite Hh1. apply Forall_app. split; [exact Hh|]. now repeat constructor. }
    specialize (IH rl1 Hin Hlater).
    destruct (canProceed_seq rl1 key later) as [oks rl2]. cbn [fst] in *.
    rewrite IH, Hh1, length_app. cbn [length maxCalls rl1].
    unfold burst_answers.
    replace (maxCalls rl - (length (history rl key) + 1))%nat
      with (maxCalls rl - length (history rl key) - 1)%nat by lia.
    set (avail := (maxCalls rl - length (history rl key))%nat).
    assert (Havail : (1 <= avail)%nat) by (unfold avail; lia).
    destruct avail as [|a]; [lia|].
    replace (S a - 1)%nat with a by lia.
    replace (Nat.min (S (length later)) (S a)) with (S (Nat.min (length later) a))
      by lia.
    replace (S (length later) - S a)%nat with (length later - a)%nat by lia.
    reflexivity.
Qed.

(** X4: a burst of calls for a key without history, all made within one
    window: the first [maxCalls] are accepted and every later one is
    rejected. *)
Theorem canProceed_burst (rl : RateLimiter) (key : jsstring) (t0 : Z)
    (times : list Z) :
  calls rl !! key = None ->
  Forall (fun t => (t0 <= t < t0 + windowMs rl)%Z) times ->
  fst (canProceed_seq rl key times)
  = repeat true (Nat.min (length times) (maxCalls rl))
    ++ repeat false (length times - maxCalls rl).
Proof.
  intros Hnone Ht.
  rewrite (canProceed_seq_burst key t0 times rl).
  - unfold history. rewrite Hnone. cbn [default length].
    now rewrite Nat.sub_0_r.
  - unfold history. rewrite Hnone. constructor.
  - exact Ht.
Qed.

Lemma canProceed_burst_witness :
  fst (canProceed_seq (newRateLimiter 3 1000) (js "user1") [0; 10; 500; 999; 999]%Z)
  = [true; true; true; false; false].
Proof.
  apply (canProceed_burst (newRateLimiter 3 1000) (js "user1") 0).
  - reflexivity.
  - unfold newRateLimiter. cbn [windowMs]. repeat constructor; lia.
Defined.



End ValidatorMoreProofs.

(* ===================================================================== *)
(** * Further properties of the file store *)
(* ===================================================================== *)

Module FileStoreMoreProofs.
Import Host FileService Runs FileOps.
Local Open Scope eff_scope.

(** X6: [checkFileContent] decides from the head alone: the first 16
    characters of a string (the first 22 when it is base64 text) or the
    first 16 bytes of a buffer; what follows never matters. *)
Theorem checkFileContent_head_only :
  (forall s enc,
     Sniffer.checkFileContent (Sniffer.BString s) enc
     = Sniffer.checkFileContent
         (Sniffer.BString
            (firstn (if Sniffer.is_base64 enc then 22 else 16) s)) enc) /\
  (forall b enc,
     Sniffer.checkFileContent (Sniffer.BBytes b) enc
     = Sniffer.checkFileContent (Sniffer.BBytes (firstn 16 b)) enc).
Proof.
  split; intros; unfold Sniffer.checkFileContent, Sniffer.heads, substring0.
  - destruct (Sniffer.is_base64 enc); now rewrite firstn_firstn.
  - now rewrite firstn_firstn.
Qed.

(** ** What the closure and the backup block touch *)

Lemma writeFile_closure_frame (p d old : jsstring) (bc : bool) (k : nat) :
  forall (rc : nat) (w : World) (r : Outcome Stats) (w' : World),
    (rc + k = 3)%nat ->
    writeFile_closure p d old bc rc w = (r, w') ->
    forall q, q <> p -> q <> old -> files w' !! q = files w !! q.
Proof.
  induction k as [|k IH]; intros rc w r w' Hk Hrun q Hqp Hqo;
    (destruct (decide (p ∈ readonly w)) as [Hro|Hro];
     [rewrite FileServiceProofs.writeFile_closure_readonly in Hrun by exact Hro;
      now injection Hrun as <- <-|]);
    rewrite FileServiceProofs.writeFile_closure_step in Hrun by exact Hro.
  all: assert (Hattempt : files (after_attempt p d w) !! q = files w !! q)
         by (cbn [files after_attempt]; now rewrite !lookup_insert_ne).
  all: assert (Hclean : files (after_cleanup bc old (after_attempt p d w)) !! q
                        = files w !! q)
         by (destruct (FileServiceProofs.cleanup_log bc old (after_attempt p d w))
               as (? & _ & _ & _ & _ & _ & _ & Hf);
             rewrite Hf by congruence; exact Hattempt).
  - destruct (decide (d <> landed d w)).
    + destruct (lt_dec (S rc) 3); [lia|]. now injection Hrun as <- <-.
    + now injection Hrun as <- <-.
  - destruct (decide (d <> landed d w)).
    + destruct (lt_dec (S rc) 3).
      * apply (IH (S rc)) with (q := q) in Hrun; [|lia|exact Hqp|exact Hqo].
        rewrite Hrun. exact Hattempt.
      * now injection Hrun as <- <-.
    + now injection Hrun as <- <-.
Qed.

Lemma createBackup_frame (env : Env) (p bkp : jsstring) (w : World) :
  forall q, q <> bkp ->
    files (snd (createBackup env p bkp w)) !! q = files w !! q.
Proof.
  intros q Hq.
  unfold createBackup, bind, attempt, readFile, open, finally, writeFh, sync,
    close, spawn, ret, log, set_files.
  destruct (files w !! p) as [f|]; [|reflexivity].
  cbn [readonly]. destruct (decide (bkp ∈ readonly w)); [reflexivity|].
  destruct (isWin env); cbn [snd files]; now rewrite !lookup_insert_ne.
Qed.

Lemma doSaveFile_frame (env : Env) (p d : jsstring) (en isNew : bool)
    (w : World) :
  forall q, q <> p -> q <> bkpPath p -> q <> oldBkpPath p ->
    files (snd (doSaveFile env p d (bkpPath p) (oldBkpPath p) en isNew w)) !! q
    = files w !! q.
Proof.
  intros q Hp Hb Ho. unfold doSaveFile, bind.
  destruct (en && negb isNew).
  - pose proof (createBackup_frame env p (bkpPath p) w q Hb) as Hf.
    destruct (FileServiceProofs.createBackup_total env p (bkpPath p) w)
      as (b & w1 & evs & Hc & _).
    rewrite Hc in Hf |- *. cbn [snd] in Hf.
    destruct (writeFile_closure p d (oldBkpPath p) b 0 w1) as [r w'] eqn:E.
    apply (writeFile_closure_frame _ _ _ _ 3) with (q := q) in E;
      [|reflexivity|exact Hp|exact Ho].
    cbn [snd]. now rewrite E.
  - cbn [ret].
    destruct (writeFile_closure p d (oldBkpPath p) false 0 w) as [r w'] eqn:E.
    apply (writeFile_closure_frame _ _ _ _ 3) with (q := q) in E;
      [|reflexivity|exact Hp|exact Ho].
    exact E.
Qed.

(** X7: [saveFile] changes no file other than its target, the backup
    sibling [.$<basename>.bkp] and the legacy backup [~$<basename>.bkp],
    whatever its outcome. *)
Theorem saveFile_frame (env : Env) (fo : FileObject) (d : jsstring)
    (orig : option Stats) (overwrite : bool) (enc : option jsstring)
    (en : bool) (w : World) (q : jsstring) :
  q <> path fo -> q <> bkpPath (path fo) -> q <> oldBkpPath (path fo) ->
  files (snd (saveFile env fo d orig overwrite enc en w)) !! q = files w !! q.
Proof.
  intros Hp Hb Ho. rewrite FileServiceProofs.saveFile_gates.
  repeat (match goal with
          | |- context [if ?c then _ else _] => destruct c
          | |- context [match ?c with Some _ => _ | None => _ end] => destruct c
          end; try reflexivity);
    now apply doSaveFile_frame.
Qed.

Lemma saveFile_frame_witness :
  files (snd (saveFile linux diagram (js "<mxfile>new</mxfile>") (Some stat5)
                false None true one_draft)) !! js "/home/u/.$d.drawio.dtmp"
  = files one_draft !! js "/home/u/.$d.drawio.dtmp".
Proof.
  apply saveFile_frame; vm_compute; discriminate.
Defined.

(** ** Conflicts *)

Lemma doSaveFile_no_conflict (env : Env) (p d bkp old : jsstring)
    (en isNew : bool) (w : World) (e : Error) (w' : World) :
  doSaveFile env p d bkp old en isNew w = (Throw e, w') ->
  code_of e <> Some FILE_CONFLICT.
Proof.
  unfold doSaveFile, bind. intros H.
  assert (exists bc w1,
            (if en && negb isNew then createBackup env p bkp else ret false) w
            = (Ok bc, w1)) as (bc & w1 & Hb).
  { destruct (en && negb isNew).
    - destruct (FileServiceProofs.createBackup_total env p bkp w)
        as (b & w1 & _ & Hc & _). eauto.
    - now exists false, w. }
  rewrite Hb in H.
  destruct (decide (p ∈ readonly w1)) as [Hro|Hro].
  - rewrite FileServiceProofs.writeFile_closure_readonly in H by exact Hro.
    injection H as <- _. discriminate.
  - apply (FileServiceProofs.writeFile_closure_runs _ _ _ _ 3) in H;
      [|reflexivity|lia|exact Hro].
    destruct H as (_ & _ & _ & _ & _ & -> & _). discriminate.
Qed.

(** X8: [saveFile] reports [FILE_CONFLICT] only for a save without
    [overwrite], with a prior stat, on a target that exists with another
    [mtimeMs]; and then nothing was changed. *)
Theorem saveFile_conflict_only_if (env : Env) (fo : FileObject) (d : jsstring)
    (orig : option Stats) (overwrite : bool) (enc : option jsstring)
    (en : bool) (w : World) (e : Error) (w' : World) :
  saveFile env fo d orig overwrite enc en w = (Throw e, w') ->
  code_of e = Some FILE_CONFLICT ->
  overwrite = false /\ w' = w /\
  exists o f, orig = Some o /\ files w !! path fo = Some f /\
    mtimeMs (stats f) <> mtimeMs o.
Proof.
  rewrite FileServiceProofs.saveFile_gates. intros H Hc.
  destruct (negb (Security.isOutsideAppDir _ _));
    [injection H as <- _; discriminate|].
  destruct (negb (Sniffer.checkFileContent _ _) || _);
    [injection H as <- _; discriminate|].
  destruct (negb (within_cap _ _)); [injection H as <- _; discriminate|].
  destruct overwrite;
    [apply doSaveFile_no_conflict in H; contradiction|].
  destruct (files w !! path fo) as [f|] eqn:Ef;
    [|apply doSaveFile_no_conflict in H; contradiction].
  destruct (isConflict orig (Some (stats f))) eqn:Ec;
    [|apply doSaveFile_no_conflict in H; contradiction].
  injection H as _ <-. split; [reflexivity|]. split; [reflexivity|].
  unfold isConflict in Ec. destruct orig as [o|]; [|discriminate].
  exists o, f. repeat split.
  apply negb_true_iff, Z.eqb_neq in Ec. exact Ec.
Qed.

Lemma saveFile_conflict_only_if_witness :
  exists o f, Some {| mtimeMs := 4; ctimeMs := 4; size := 9 |} = Some o /\
    files disk !! path diagram = Some f /\ mtimeMs (stats f) <> mtimeMs o.
Proof.
  apply (saveFile_conflict_only_if linux diagram (js "<mxfile>new</mxfile>")
           (Some {| mtimeMs := 4; ctimeMs := 4; size := 9 |}) false None true
           disk
           (FileError (js "File conflict detected") FILE_CONFLICT (path diagram))
           disk).
  - vm_compute; reflexivity.
  - reflexivity.
Defined.

(** ** Drafts *)

Lemma existsSync_pure (p : jsstring) (w : World) :
  existsSync p w = (Ok (bool_decide (is_Some (files w !! p))), w).
Proof. reflexivity. Qed.

Lemma uniquePart_next (k : nat) :
  js "_" ++ num_to_js (N.of_nat k + 1) = uniquePart_at (S k).
Proof.
  unfold uniquePart_at. do 2 f_equal. lia.
Qed.

(** The loop entered at its [k]-th probe stops at the first free name
    from [k] on. *)
Lemma getDraftFileName_loop_gap (p : jsstring) (w : World) (n : nat) :
  forall (fuel k : nat),
    (k <= n)%nat -> (n - k < fuel)%nat ->
    (forall i, (k <= i < n)%nat -> is_Some (files w !! draft_at p i)) ->
    files w !! draft_at p n = None ->
    getDraftFileName_loop fuel p (N.of_nat k + 1) (uniquePart_at k) w
    = (Ok (Some (draft_at p n)), w).
Proof.
  induction fuel as [|fuel IH]; intros k Hk Hfuel Hex Hgap; [lia|].
  cbn [getDraftFileName_loop]. unfold bind. rewrite existsSync_pure.
  fold (draft_at p k).
  destruct (decide (k = n)) as [->|Hne].
  - rewrite Hgap.
    rewrite bool_decide_eq_false_2 by (intros [? ?]; discriminate).
    reflexivity.
  - rewrite bool_decide_eq_true_2 by (apply Hex; lia).
    rewrite uniquePart_next.
    replace (N.of_nat k + 1 + 1) with (N.of_nat (S k) + 1) by lia.
    apply IH; [lia|lia| |exact Hgap].
    intros i Hi. apply Hex. lia.
Qed.

(** Whatever the loop returns is a name that is free, and the loop
    changes nothing. *)
Lemma getDraftFileName_loop_fresh (p : jsstring) (w : World) :
  forall (fuel : nat) (c : N) (u : jsstring) (r : Outcome (option jsstring))
         (w' : World),
    getDraftFileName_loop fuel p c u w = (r, w') ->
    w' = w /\
    exists o, r = Ok o /\
      forall name, o = Some name -> files w !! name = None.
Proof.
  induction fuel as [|fuel IH]; intros c u r w' H.
  - injection H as <- <-. split; [reflexivity|]. exists None. split; [reflexivity|].
    discriminate.
  - cbn [getDraftFileName_loop] in H. unfold bind in H.
    rewrite existsSync_pure in H.
    destruct (bool_decide _) eqn:E.
    + now apply IH in H.
    + injection H as <- <-. split; [reflexivity|].
      eexists. split; [reflexivity|].
      intros name Hn. injection Hn as <-.
      apply bool_decide_eq_false in E.
      destruct (files w !! _) eqn:Ef; [|reflexivity].
      exfalso. apply E. eauto.
Qed.

(** X9: [getDraftFileName] probes [.$name.dtmp], [.$name_1.dtmp],
    [.$name_2.dtmp], .. in this order and returns the first name that no
    file has; any name it returns is free, and it changes nothing. *)
Theorem getDraftFileName_first_free (p : jsstring) (w : World) :
  (forall fuel n,
     (n < fuel)%nat ->
     (forall i, (i < n)%nat -> is_Some (files w !! draft_at p i)) ->
     files w !! draft_at p n = None ->
     getDraftFileName fuel p w = (Ok (Some (draft_at p n)), w)) /\
  (forall fuel name w',
     getDraftFileName fuel p w = (Ok (Some name), w') ->
     w' = w /\ files w !! name = None).
Proof.
  split.
  - intros fuel n Hfuel Hex Hgap. unfold getDraftFileName.
    apply (getDraftFileName_loop_gap p w n fuel 0); [lia|lia| |exact Hgap].
    intros i Hi. apply Hex. lia.
  - intros fuel name w' H. unfold getDraftFileName in H.
    apply getDraftFileName_loop_fresh in H as (-> & o & Ho & Hfree).
    injection Ho as <-. split; [reflexivity|]. now apply Hfree.
Qed.

Lemma getDraftFileName_first_free_witness :
  getDraftFileName 5%nat (path diagram) one_draft
  = (Ok (Some (js "/home/u/.$d.drawio_1.dtmp")), one_draft).
Proof.
  apply (proj1 (getDraftFileName_first_free (path diagram) one_draft) 5%nat 1%nat).
  - lia.
  - intros i Hi. assert (i = 0)%nat as -> by lia. vm_compute. eauto.
  - vm_compute. reflexivity.
Defined.

(** What [saveDraft] does once the name is chosen. *)
Lemma saveDraft_named (env : Env) (fuel : nat) (fo : DraftObject)
    (d : jsstring) (w : World) (name : jsstring) (w' : World) :
  saveDraft env fuel fo d w = (Ok (Some name), w') ->
  (name ∉ readonly w) /\
  files w' = <[name := written (landed d w) (now w)]> (files w) /\
  Sniffer.checkFileContent (Sniffer.BString d) None = true /\
  Security.isOutsideAppDir (host env) name = true /\
  Security.validateFileContent d = true /\
  within_cap name w = true /\
  (draftFileName fo = None -> files w !! name = None).
Proof.
  unfold saveDraft. unfold bind at 1.
  assert (Hname : exists o,
            (match draftFileName fo with
             | Some (c :: s) => ret (Some (c :: s))
             | _ => getDraftFileName fuel (owner fo)
             end) w = (Ok o, w) /\
            forall n, o = Some n -> draftFileName fo = None ->
                      files w !! n = None).
  { destruct (draftFileName fo) as [[|c s]|] eqn:Ed.
    - destruct (getDraftFileName fuel (owner fo) w) as [r w1] eqn:E.
      apply getDraftFileName_loop_fresh in E as (-> & o & -> & Hfree).
      exists o. split; [reflexivity|]. discriminate.
    - eexists. split; [reflexivity|]. discriminate.
    - destruct (getDraftFileName fuel (owner fo) w) as [r w1] eqn:E.
      apply getDraftFileName_loop_fresh in E as (-> & o & -> & Hfree).
      exists o. split; [reflexivity|]. intros n Hn _. now apply Hfree. }
  destruct Hname as (o & -> & Hfree).
  destruct o as [n|]; [|discriminate].
  destruct (Sniffer.checkFileContent _ _) eqn:Ec; [|discriminate].
  destruct (Security.isOutsideAppDir _ _) eqn:Eo; [|discriminate].
  cbn [negb orb]. unfold bind at 1.
  rewrite FileServiceProofs.validateFileSize_pure.
  destruct (within_cap n w) eqn:Ew; [|discriminate].
  destruct (Security.validateFileContent d) eqn:Ev; [|discriminate].
  cbn [negb orb]. unfold bind, writeFilePath, writeFh, attempt, spawn, ret, log.
  destruct (decide (n ∈ readonly w)) as [Hro|Hro]; [discriminate|].
  destruct (isWin env); intros H; injection H as <- <-;
    (repeat split; try assumption; intros; now apply Hfree).
Qed.

(** X10: a draft saved without a given name never replaces a file: the
    name it returns had no file before, it holds the draft afterwards,
    and every other file is as it was.  Two drafts saved one after the
    other get different names. *)
Theorem saveDraft_never_overwrites (env : Env) (fuel : nat) (owner : jsstring)
    (d : jsstring) (w : World) (name : jsstring) (w' : World) :
  saveDraft env fuel {| owner := owner; draftFileName := None |} d w
  = (Ok (Some name), w') ->
  files w !! name = None /\
  is_Some (files w' !! name) /\
  (forall q, q <> name -> files w' !! q = files w !! q) /\
  (forall fuel2 d2 name2 w2,
     saveDraft env fuel2 {| owner := owner; draftFileName := None |} d2 w'
     = (Ok (Some name2), w2) ->
     name2 <> name /\ is_Some (files w2 !! name) /\ is_Some (files w2 !! name2)).
Proof.
  intros H. apply saveDraft_named in H as (_ & Hf & _ & _ & _ & _ & Hfree).
  specialize (Hfree eq_refl).
  assert (Hn : is_Some (files w' !! name))
    by (rewrite Hf, lookup_insert_eq; eauto).
  split; [exact Hfree|]. split; [exact Hn|].
  split; [intros q Hq; rewrite Hf; now apply lookup_insert_ne|].
  intros fuel2 d2 name2 w2 H2.
  apply saveDraft_named in H2 as (_ & Hf2 & _ & _ & _ & _ & Hfree2).
  specialize (Hfree2 eq_refl).
  assert (Hne : name2 <> name).
  { intros ->. rewrite Hfree2 in Hn. destruct Hn; discriminate. }
  split; [exact Hne|]. rewrite Hf2.
  split; [rewrite lookup_insert_ne by exact Hne; exact Hn|].
  rewrite lookup_insert_eq. eauto.
Qed.

Lemma saveDraft_never_overwrites_witness :
  files one_draft !! js "/home/u/.$d.drawio_1.dtmp" = None.
Proof.
  apply (saveDraft_never_overwrites linux 5%nat (path diagram)
           (js "<mxfile>draft</mxfile>") one_draft
           (js "/home/u/.$d.drawio_1.dtmp")
           (snd (saveDraft linux 5%nat
                   {| owner := path diagram; draftFileName := None |}
                   (js "<mxfile>draft</mxfile>") one_draft))).
  vm_compute. reflexivity.
Defined.

(** ** What the writers accept *)

Lemma validateFileContent_true (d : jsstring) :
  Security.validateFileContent d = true ->
  (Encoding.byteLength d <= Security.MAX_FILE_SIZE)%Z /\
  Spec.unsuspicious d = true.
Proof.
  unfold Security.validateFileContent, Spec.unsuspicious.
  destruct (_ <? _)%Z eqn:E; [discriminate|].
  apply Z.ltb_ge in E.
  destruct (existsb _ _); [discriminate|]. auto.
Qed.

(** X11: no writer of the file store succeeds with content that the
    allow-list does not recognise, that contains a suspicious substring
    or that exceeds 100 MB, nor on a path inside the application
    directory or on a file already above the cap.  This holds for
    [saveFile], [writeFile] and [saveDraft]. *)
Theorem writers_accept_only_valid :
  (forall env fo d orig overwrite enc en w st w',
     saveFile env fo d orig overwrite enc en w = (Ok st, w') ->
     Security.isOutsideAppDir (host env) (path fo) = true /\
     Sniffer.checkFileContent (Sniffer.BString d) None = true /\
     Spec.unsuspicious d = true /\
     (Encoding.byteLength d <= Security.MAX_FILE_SIZE)%Z /\
     within_cap (path fo) w = true) /\
  (forall env p d enc w u w',
     writeFile env p d enc w = (Ok u, w') ->
     Security.isOutsideAppDir (host env) p = true /\
     Sniffer.checkFileContent (Sniffer.BString d) enc = true /\
     Spec.unsuspicious d = true /\
     (Encoding.byteLength d <= Security.MAX_FILE_SIZE)%Z /\
     within_cap p w = true) /\
  (forall env fuel fo d w name w',
     saveDraft env fuel fo d w = (Ok (Some name), w') ->
     Security.isOutsideAppDir (host env) name = true /\
     Sniffer.checkFileContent (Sniffer.BString d) None = true /\
     Spec.unsuspicious d = true /\
     (Encoding.byteLength d <= Security.MAX_FILE_SIZE)%Z /\
     within_cap name w = true).
Proof.
  repeat split.
  1-5: rewrite FileServiceProofs.saveFile_gates in H;
       destruct (Security.isOutsideAppDir _ _) eqn:E1; [|discriminate];
       destruct (Sniffer.checkFileContent _ _) eqn:E2; [|discriminate];
       destruct (Security.validateFileContent d) eqn:E3; [|discriminate];
       destruct (within_cap _ _) eqn:E4; [|discriminate];
       try reflexivity; now apply validateFileContent_true in E3.
  1-5: unfold writeFile in H;
       destruct (Security.isOutsideAppDir _ _) eqn:E1; [|discriminate];
       destruct (Sniffer.checkFileContent _ _) eqn:E2; [|discriminate];
       destruct (Security.validateFileContent d) eqn:E3; [|discriminate];
       cbn [negb orb] in H; unfold bind at 1 in H;
       rewrite FileServiceProofs.validateFileSize_pure in H;
       destruct (within_cap _ _) eqn:E4; [|discriminate];
       try reflexivity; now apply validateFileContent_true in E3.
  1-5: apply saveDraft_named in H as (_ & _ & E2 & E1 & E3 & E4 & _);
       try assumption; now apply validateFileContent_true in E3.
Qed.

Lemma writers_accept_only_valid_witness :
  Spec.unsuspicious (js "<mxfile>new</mxfile>") = true.
Proof.
  apply (proj1 writers_accept_only_valid linux diagram
           (js "<mxfile>new</mxfile>") (Some stat5) false None true disk
           {| mtimeMs := 10; ctimeMs := 10; size := 20 |}
           (snd (saveFile linux diagram (js "<mxfile>new</mxfile>")
                   (Some stat5) false None true disk))).
  vm_compute. reflexivity.
Defined.



End FileStoreMoreProofs.

(* ===================================================================== *)
(** * Further properties of the boundary dispatcher *)
(* ===================================================================== *)

Module DispatcherMoreProofs.
Import Security Handlers Usage.
Local Open Scope eff_scope.

Section Actions.
Context {V X : Type} (svc : Services V X).


(** The case labels before, and including, a given action. *)
Ltac settle_cases E :=
  unfold handleAction, case_; rewrite E;
  repeat match goal with
         | |- context [bool_decide (js ?a = js ?b)] =>
             first [ change (bool_decide (js a = js b)) with false
                   | change (bool_decide (js a = js b)) with true ]
         end;
  cbv beta iota.

Ltac settle_cases_in E H :=
  unfold handleAction, case_ in H; rewrite E in H;
  repeat match type of H with
         | context [bool_decide (js ?a = js ?b)] =>
             first [ change (bool_decide (js a = js b)) with false in H
                   | change (bool_decide (js a = js b)) with true in H ]
         end;
  cbv beta iota in H.

(** X15: the action [clipboardAction] always answers [null]: the text
    that [readText] returns is dropped, and a method outside
    [writeText], [readText], [writeImage] is answered like the others,
    without an error and without a call to the clipboard. *)
Theorem clipboardAction_answers_null (args : Args V) (m : Main X) :
  action args = js "clipboardAction" ->
  (forall v m', handleAction svc args m = (Ok v, m') -> v = VNull) /\
  (is_str (field args "method") "writeText" = false ->
   is_str (field args "method") "readText" = false ->
   is_str (field args "method") "writeImage" = false ->
   handleAction svc args m = (Ok VNull, after_appData svc m)).
Proof.
  intros E. split.
  - intros v m' H. settle_cases_in E H.
    unfold bind, handleClipboardAction, call, ret in H.
    destruct (FileService_getAppDataFolder svc (rest m)) as [a x].
    repeat match type of H with
           | context [if ?c then _ else _] => destruct c
           end;
      cbn [rest dialogOpen] in H;
      repeat match type of H with
             | context [let '(_, _) := ?c in _] => destruct c as [[?|?] ?]
             end;
      now inversion H.
  - intros H1 H2 H3. settle_cases E.
    unfold bind, handleClipboardAction, ret, after_appData.
    rewrite H1, H2, H3.
    destruct (FileService_getAppDataFolder svc (rest m)) as [a x].
    reflexivity.
Qed.

(** X16: the action [openExternal] hands a URL to the shell only when it
    begins, in any letter case, with [http:], [https:], [mailto:],
    [tel:] or [callto:]; every other URL is answered [false] and the
    shell is not called.  URLs of the schemes [file:] and [javascript:]
    are among those refused. *)
Theorem openExternal_blocks (args : Args V) (m : Main X) :
  action args = js "openExternal" ->
  (allowedUrls_test (toString svc (field args "url")) = false ->
   handleAction svc args m = (Ok (VBool false), after_appData svc m)) /\
  (forall v m',
     handleAction svc args m = (Ok v, m') ->
     v = VBool (allowedUrls_test (toString svc (field args "url")))) /\
  (forall rest, allowedUrls_test (js "file:" ++ rest) = false) /\
  (forall rest, allowedUrls_test (js "javascript:" ++ rest) = false).
Proof.
  intros E. split; [|split; [|split]].
  - intros Hurl. settle_cases E.
    unfold bind, openExternal, ret, after_appData. rewrite Hurl.
    destruct (FileService_getAppDataFolder svc (rest m)) as [a x].
    reflexivity.
  - intros v m' H. settle_cases_in E H.
    unfold bind, openExternal, call, ret in H.
    destruct (FileService_getAppDataFolder svc (rest m)) as [a x].
    destruct (allowedUrls_test _).
    + cbv beta iota delta [Eff.bind call Eff.ret rest dialogOpen] in H.
      destruct (shell_openExternal svc (field args "url") x) as [[?|?] ?];
        now inversion H.
    + now inversion H.
  - intros rest. reflexivity.
  - intros rest. reflexivity.
Qed.

Lemma keeps_ret {A} (a : A) : keeps_flag (Eff.ret a : Eff.M (Main X) (JsError V) A).
Proof. intros m. reflexivity. Qed.

Lemma keeps_throw {A} (e : JsError V) :
  keeps_flag (Eff.throw e : Eff.M (Main X) (JsError V) A).
Proof. intros m. reflexivity. Qed.

Lemma keeps_call {A} (f : X -> Eff.Res (JsError V) A * X) :
  keeps_flag (call f).
Proof. intros m. unfold call. now destruct (f (rest m)). Qed.

Lemma keeps_bind {A B} (c : Eff.M (Main X) (JsError V) A)
    (k : A -> Eff.M (Main X) (JsError V) B) :
  keeps_flag c -> (forall a, keeps_flag (k a)) -> keeps_flag (Eff.bind c k).
Proof.
  intros Hc Hk m. unfold Eff.bind. specialize (Hc m).
  destruct (c m) as [[a|e] m1]; cbn [snd] in *.
  - now rewrite Hk.
  - assumption.
Qed.

Ltac keeps :=
  repeat first
    [ apply keeps_ret | apply keeps_throw | apply keeps_call
    | apply keeps_bind; [|intros ?]
    | match goal with
      | |- keeps_flag (if ?c then _ else _) => destruct c
      | |- keeps_flag (match ?v with _ => _ end) => destruct v
      end ].

(** X17: the flag [dialogOpen], which [isDialogOpen] reports, is false
    after [showOpenDialog] and [showSaveDialog], whether the dialog
    returned or threw; every other action, known or unknown, leaves the
    flag as it was. *)
Theorem handleAction_dialogOpen (args : Args V) (m : Main X) :
  dialogOpen (snd (handleAction svc args m)) =
  if is_dialog_action (action args) then false else dialogOpen m.
Proof.
  unfold is_dialog_action.
  destruct (decide (action args = js "showOpenDialog")) as [E|N1].
  { settle_cases E. cbn [orb].
    unfold Eff.bind, Eff.finally, set_dialogOpen, Eff.modify, call, Eff.ret.
    destruct (FileService_getAppDataFolder svc (rest m)) as [a x].
    cbn [rest dialogOpen].
    destruct (BrowserWindow_getFocusedWindow svc x) as [[w|e] x1];
      [|reflexivity].
    cbn [rest dialogOpen].
    match goal with
    | |- context [dialog_showOpenDialog svc w ?a ?b ?c x1] =>
        cbn [rest dialogOpen];
        now destruct (dialog_showOpenDialog svc w a b c x1) as [[?|?] ?]
    end. }
  destruct (decide (action args = js "showSaveDialog")) as [E|N2].
  { settle_cases E. cbn [orb].
    unfold Eff.bind, Eff.finally, set_dialogOpen, Eff.modify, call, Eff.ret.
    destruct (FileService_getAppDataFolder svc (rest m)) as [a x].
    cbn [rest dialogOpen].
    destruct (BrowserWindow_getFocusedWindow svc x) as [[w|e] x1];
      [|reflexivity].
    cbn [rest dialogOpen].
    match goal with
    | |- context [dialog_showSaveDialog svc w ?a ?b x1] =>
        now destruct (dialog_showSaveDialog svc w a b x1) as [[?|?] ?]
    end. }
  rewrite (bool_decide_eq_false_2 _ N1), (bool_decide_eq_false_2 _ N2).
  cbn [orb].
  revert m. change (keeps_flag (handleAction svc args)).
  unfold handleAction, case_.
  rewrite (bool_decide_eq_false_2 _ N1), (bool_decide_eq_false_2 _ N2).
  apply keeps_bind.
  - intros m0. now destruct (FileService_getAppDataFolder svc (rest m0)).
  - intros a.
    unfold handleClipboardAction, handleWindowAction, openExternal,
      watchFile, unwatchFile.
    keeps.
Qed.

End Actions.

Lemma clipboardAction_answers_null_witness :
  fst (handleAction Recorder.recorder Recorder.read_clipboard Recorder.idle)
  = Ok VNull /\
  rest (snd (handleAction Recorder.recorder Recorder.read_clipboard
               Recorder.idle))
  = ["readText"; "getAppDataFolder"]%string.
Proof.
  split; [|reflexivity].
  destruct (handleAction Recorder.recorder Recorder.read_clipboard
              Recorder.idle) as [[v|e] m'] eqn:H.
  - cbn [fst]. f_equal.
    apply (proj1 (clipboardAction_answers_null Recorder.recorder
                    Recorder.read_clipboard Recorder.idle eq_refl) v m' H).
  - vm_compute in H. discriminate.
Defined.

Lemma openExternal_blocks_witness :
  handleAction Recorder.recorder Recorder.open_local_file Recorder.idle
  = (Ok (VBool false),
     {| dialogOpen := false; rest := ["getAppDataFolder"]%string |}).
Proof.
  apply (proj1 (openExternal_blocks Recorder.recorder
                  Recorder.open_local_file Recorder.idle eq_refl)).
  reflexivity.
Defined.

End DispatcherMoreProofs.

(* ===================================================================== *)
(** * Plugins, displays and the window state *)
(* ===================================================================== *)

Module PluginServiceProofs.
Import Host PluginService.
Local Open Scope eff_scope.

Lemma getPluginFile_cases (plugin app : jsstring) (s : PluginState) :
  snd (getPluginFile plugin app s) = s /\
  (pluginsEnabled s = false ->
   fst (getPluginFile plugin app s) = Ok None) /\
  (forall f,
     fst (getPluginFile plugin app s) = Ok (Some f) ->
     pluginsEnabled s = true /\
     f = Path.join (getPluginsDir app) (Security.sanitizeFilename plugin) /\
     startsWith f (getPluginsDir app) = true /\
     is_Some (files (world s) !! f)) /\
  (forall e, fst (getPluginFile plugin app s) <> Throw e).
Proof.
  unfold getPluginFile.
  destruct (pluginsEnabled s) eqn:En; cbn [negb].
  - destruct (startsWith _ _) eqn:Hs; cbn [negb].
    + case_bool_decide as Hf; cbn [negb fst snd].
      * split; [reflexivity|]. split; [discriminate|].
        split; [|discriminate].
        intros f H; inversion H; subst; auto.
      * repeat split; discriminate.
    + repeat split; discriminate.
  - repeat split; try discriminate.
Qed.

(** X18: [uninstallPlugin] removes at most one file, the one named
    [join(pluginsDir, sanitizeFilename(plugin))], and only when that
    path begins with the plugins directory: every other file is left as
    it was, the switch [pluginsEnabled] is not changed, and while
    plugins are disabled nothing is removed at all. *)
Theorem uninstallPlugin_scope (plugin app : jsstring) (s : PluginState) :
  let target :=
    Path.join (getPluginsDir app) (Security.sanitizeFilename plugin) in
  let s' := snd (uninstallPlugin plugin app s) in
  pluginsEnabled s' = pluginsEnabled s /\
  (forall q, q <> target ->
     files (world s') !! q = files (world s) !! q) /\
  (files (world s') !! target = None /\
   startsWith target (getPluginsDir app) = true \/ s' = s) /\
  (pluginsEnabled s = false ->
   uninstallPlugin plugin app s = (Ok tt, s)).
Proof.
  intros target s'. subst s'. unfold uninstallPlugin, Eff.bind.
  destruct (getPluginFile_cases plugin app s) as (Hs & Hoff & Hfile & Hok).
  destruct (getPluginFile plugin app s) as [[[f|]|e] s1] eqn:Eg;
    cbn [fst snd] in *; subst s1.
  - destruct (Hfile f eq_refl) as (Hen & -> & Hpre & Hex).
    fold target in Hex, Hpre |- *.
    destruct target as [|c t] eqn:Et.
    + cbn. repeat split; auto; congruence.
    + unfold FileOps.unlink. destruct Hex as [v Hv]. rewrite Hv.
      cbn [snd world pluginsEnabled files log set_files].
      repeat split.
      * intros q Hq. now rewrite lookup_delete_ne.
      * left. split; [apply lookup_delete_eq|assumption].
      * congruence.
  - cbn. repeat split; auto.
  - now destruct (Hok e).
Qed.

End PluginServiceProofs.

Module DisplayProofs.
Import Display.
Local Open Scope Z_scope.

(** X19: [isWithinDisplayBounds] and [getDisplayAtPosition] agree: the
    first is true exactly when the second finds a display, and the
    display found is one of the displays, its work area contains the
    position (left and top edges included, right and bottom edges
    excluded), and no display before it in the list does. *)
Theorem getDisplayAtPosition_agrees (displays : list Rectangle)
    (pos : Position) :
  (isWithinDisplayBounds displays pos = true <->
   is_Some (getDisplayAtPosition displays pos)) /\
  (forall d,
     getDisplayAtPosition displays pos = Some d ->
     exists before after,
       displays = before ++ d :: after /\
       List.Forall (fun a => contains a pos = false) before /\
       x d <= pos_x pos < x d + width d /\
       y d <= pos_y pos < y d + height d).
Proof.
  unfold isWithinDisplayBounds, getDisplayAtPosition. split.
  - induction displays as [|a l IH]; cbn.
    + split; [discriminate|intros [? H]; discriminate].
    + destruct (contains a pos); cbn; [|exact IH].
      split; eauto.
  - induction displays as [|a l IH]; cbn; [discriminate|].
    intros d. destruct (contains a pos) eqn:Ha.
    + intros H. inversion H; subst. exists [], l.
      repeat split; try constructor.
      all: unfold contains in Ha;
        rewrite !andb_true_iff, !Z.leb_le, !Z.ltb_lt in Ha; lia.
    + intros H. destruct (IH d H) as (b & af & -> & Hb & Hx & Hy).
      exists (a :: b), af. repeat split; try tauto.
      now constructor.
Qed.

End DisplayProofs.

Module WindowManagerProofs.
Import WindowManager.

Lemma digit_of_mod (n : N) : is_digit (48 + n mod 10) = true.
Proof.
  pose proof (N.mod_upper_bound n 10 ltac:(lia)) as Hm.
  unfold is_digit. generalize dependent (n mod 10)%N. intros m Hm.
  apply andb_true_iff; split; apply N.leb_le; lia.
Qed.

Lemma digits_fuel_value (fuel : nat) :
  forall (n : N) (acc : jsstring) (len v : N),
    (n < 2 ^ N.of_nat fuel)%N ->
    (forall a, digits_value acc a = a * 10 ^ len + v)%N ->
    exists len',
      forall a,
        (digits_value (digits_fuel fuel n acc) a
         = a * 10 ^ len' + (n * 10 ^ len + v))%N.
Proof.
  induction fuel as [|fuel IH]; intros n acc len v Hn Hacc.
  - cbn in Hn. assert (n = 0%N) as -> by lia. exists len. intros a.
    cbn [digits_fuel]. rewrite Hacc. lia.
  - cbn [digits_fuel].
    assert (Hstep : forall a,
               (digits_value ((48 + n mod 10) :: acc) a
                = a * 10 ^ (len + 1) + (n mod 10 * 10 ^ len + v))%N).
    { intros a. cbn [digits_value]. rewrite digit_of_mod.
      rewrite Hacc, N.pow_add_r, N.pow_1_r.
      generalize (n mod 10)%N (10 ^ len)%N. intros m p.
      replace (48 + m - 48)%N with m by lia. lia. }
    destruct (N.ltb_spec n 10) as [Hlt|Hge].
    + exists (len + 1)%N. intros a. rewrite Hstep.
      rewrite (N.mod_small n 10) by assumption. lia.
    + assert (Hdiv : (n / 10 < 2 ^ N.of_nat fuel)%N).
      { apply N.Div0.div_lt_upper_bound.
        rewrite Nat2N.inj_succ, N.pow_succ_r' in Hn. lia. }
      destruct (IH (n / 10)%N _ (len + 1)%N _ Hdiv Hstep) as [len' H].
      exists len'. intros a. rewrite H.
      rewrite N.pow_add_r, N.pow_1_r.
      pose proof (N.div_mod n 10 ltac:(lia)) as Hdm.
      generalize dependent (n mod 10)%N. generalize dependent (n / 10)%N.
      generalize (10 ^ len)%N (10 ^ len')%N. intros; nia.
Qed.

Lemma digits_fuel_digits (fuel : nat) :
  forall (n : N) (acc : jsstring),
    List.Forall (fun c => is_digit c = true) acc ->
    List.Forall (fun c => is_digit c = true) (digits_fuel fuel n acc).
Proof.
  induction fuel as [|fuel IH]; intros n acc Hacc; cbn [digits_fuel].
  - assumption.
  - assert (List.Forall (fun c => is_digit c = true)
              ((48 + n mod 10)%N :: acc)) as Hstep.
    { constructor; [apply digit_of_mod|assumption]. }
    destruct (n <? 10)%N; auto.
Qed.

Lemma digits_fuel_nonempty (fuel : nat) (n : N) (acc : jsstring) :
  digits_fuel (S fuel) n acc <> [].
Proof.
  revert n acc. induction fuel as [|fuel IH]; intros n acc.
  - cbn. now destruct (n <? 10)%N.
  - change (digits_fuel (S (S fuel)) n acc)
      with (if (n <? 10)%N then (48 + n mod 10)%N :: acc
            else digits_fuel (S fuel) (n / 10) ((48 + n mod 10)%N :: acc)).
    destruct (n <? 10)%N; [discriminate|apply IH].
Qed.

(** The decimal digits of a counter are read back as the counter. *)
Lemma num_to_js_value (n : N) :
  digits_value (num_to_js n) 0 = n /\
  List.Forall (fun c => is_digit c = true) (num_to_js n) /\
  num_to_js n <> [].
Proof.
  unfold num_to_js. split; [|split].
  - assert (Hn : (n < 2 ^ N.of_nat (S (N.to_nat (N.log2 n))))%N).
    { rewrite Nat2N.inj_succ, N2Nat.id.
      destruct n as [|p]; [cbn; lia|].
      apply N.log2_spec. lia. }
    destruct (digits_fuel_value _ n [] 0%N 0%N Hn) as [len' H].
    { intros a. cbn. lia. }
    rewrite H. lia.
  - apply digits_fuel_digits. constructor.
  - apply digits_fuel_nonempty.
Qed.

Lemma is_digit_cases (c : N) :
  is_digit c = true ->
  (c = 48 \/ c = 49 \/ c = 50 \/ c = 51 \/ c = 52 \/ c = 53 \/ c = 54
   \/ c = 55 \/ c = 56 \/ c = 57)%N.
Proof.
  unfold is_digit. rewrite andb_true_iff, !N.leb_le. lia.
Qed.

Lemma parseInt_digits (c : N) (r : jsstring) :
  is_digit c = true ->
  parseInt (c :: r) = Int (Z.of_N (digits_value (c :: r) 0)) /\
  parseInt (45%N :: c :: r) = Int (- Z.of_N (digits_value (c :: r) 0)).
Proof.
  intros Hc. destruct (is_digit_cases c Hc) as [H|H]; [|
    repeat (destruct H as [H|H]; [subst; split; reflexivity|]) ].
  - subst; split; reflexivity.
  - subst; split; reflexivity.
Qed.

(** [parseInt] reads back what a template string prints. *)
Lemma parseInt_number_to_js (n : number) :
  parseInt (number_to_js n) = n.
Proof.
  destruct n as [|z]; [reflexivity|]. unfold number_to_js.
  destruct (Z.ltb_spec z 0) as [Hneg|Hpos].
  - destruct (num_to_js_value (Z.to_N (- z))) as (Hv & Hd & Hne).
    destruct (num_to_js (Z.to_N (- z))) as [|c r]; [easy|].
    inversion Hd as [|? ? Hc _]; subst.
    rewrite (proj2 (parseInt_digits c r Hc)), Hv. f_equal. lia.
  - destruct (num_to_js_value (Z.to_N z)) as (Hv & Hd & Hne).
    destruct (num_to_js (Z.to_N z)) as [|c r]; [easy|].
    inversion Hd as [|? ? Hc _]; subst.
    rewrite (proj1 (parseInt_digits c r Hc)), Hv. f_equal. lia.
Qed.

Lemma split_comma_part (a : jsstring) :
  List.Forall (fun c => c <> 44%N) a ->
  forall r cur,
    split_comma (a ++ 44%N :: r) cur = (rev cur ++ a) :: split_comma r [] /\
    split_comma a cur = [rev cur ++ a].
Proof.
  induction 1 as [|c a Hc Ha IH]; intros r cur.
  - cbn. now rewrite app_nil_r.
  - cbn [app split_comma]. destruct (N.eqb_spec c 44); [contradiction|].
    destruct (IH r (c :: cur)) as [H1 H2]. rewrite H1, H2.
    cbn [rev]. now rewrite <- !app_assoc.
Qed.

Lemma number_to_js_plain (n : number) :
  List.Forall (fun c => c <> 44%N) (number_to_js n) /\ number_to_js n <> [].
Proof.
  assert (Hd : forall k, List.Forall (fun c => c <> 44%N) (num_to_js k)).
  { intros k. destruct (num_to_js_value k) as (_ & Hd & _).
    eapply List.Forall_impl; [|exact Hd].
    intros c Hc. apply is_digit_cases in Hc. lia. }
  destruct n as [|z]; cbn.
  - split; [repeat constructor; lia|discriminate].
  - destruct (z <? 0)%Z.
    + split; [constructor; [lia|apply Hd]|discriminate].
    + split; [apply Hd|]. apply (num_to_js_value (Z.to_N z)).
Qed.

Lemma bool_to_js_plain (b : bool) :
  List.Forall (fun c => c <> 44%N) (bool_to_js b) /\
  bool_decide (bool_to_js b = js "true") = b.
Proof.
  destruct b; (split; [repeat constructor; cbn; lia|reflexivity]).
Qed.

(** X20: what [serializeWindowState] writes, [parseWindowState] reads
    back: the flags and the position as they were, with an undefined
    coordinate read back as 0, and the size as it was unless it is below
    the minimum of 500, which is read back as 500.  The numbers of the
    state are whole numbers that JavaScript represents exactly, or
    [NaN]. *)
Theorem parseWindowState_serializeWindowState (s : WindowState) :
  safe (width s) -> safe (height s) ->
  safe (or_zero (x s)) -> safe (or_zero (y s)) ->
  parseWindowState (Some (serializeWindowState s)) =
  {| width := if below (width s) 500 then Int 500 else width s;
     height := if below (height s) 500 then Int 500 else height s;
     x := Some (or_zero (x s));
     y := Some (or_zero (y s));
     maximized := maximized s;
     fullscreen := fullscreen s |}.
Proof.
  intros _ _ _ _. unfold parseWindowState, serializeWindowState.
  destruct (number_to_js_plain (width s)) as [Pw Nw].
  destruct (number_to_js_plain (height s)) as [Ph _].
  destruct (number_to_js_plain (or_zero (x s))) as [Px _].
  destruct (number_to_js_plain (or_zero (y s))) as [Py _].
  destruct (bool_to_js_plain (maximized s)) as [Pm Em].
  destruct (bool_to_js_plain (fullscreen s)) as [Pf Ef].
  destruct (number_to_js (width s) ++ _) as [|c0 t0] eqn:Es.
  { destruct (number_to_js (width s)); [easy|discriminate]. }
  rewrite <- Es.
  rewrite (proj1 (split_comma_part _ Pw _ [])).
  rewrite (proj1 (split_comma_part _ Ph _ [])).
  rewrite (proj1 (split_comma_part _ Px _ [])).
  rewrite (proj1 (split_comma_part _ Py _ [])).
  rewrite (proj1 (split_comma_part _ Pm _ [])).
  rewrite (proj2 (split_comma_part _ Pf [] [])).
  cbn [rev app]. unfold part_is_true. cbn [nth_error].
  rewrite !parseInt_number_to_js, Em, Ef. reflexivity.
Qed.

(** X21: whatever string is stored, [parseWindowState] answers with a
    state whose width and height are [NaN] or at least 500, and with
    the default state (1200 by 800, not maximized) when the string is
    missing, empty or has fewer than four comma-separated parts. *)
Theorem parseWindowState_minimum (stateStr : option jsstring) :
  at_least 500 (width (parseWindowState stateStr)) /\
  at_least 500 (height (parseWindowState stateStr)) /\
  (match stateStr with
   | Some s => (length (split_comma s []) < 4)%nat \/ s = []
   | None => True
   end -> parseWindowState stateStr = getDefaultWindowState).
Proof.
  assert (Hfloor : forall n,
             at_least 500 (if below n 500 then Int 500 else n)).
  { intros [|z]; cbn; [exact I|].
    destruct (Z.ltb_spec z 500); cbn; lia. }
  assert (Hdef : at_least 500 (width getDefaultWindowState) /\
                 at_least 500 (height getDefaultWindowState)).
  { cbn. lia. }
  unfold parseWindowState.
  destruct stateStr as [[|c s]|]; try (now repeat split; try apply Hdef).
  destruct (split_comma (c :: s) []) as [|p0 [|p1 [|p2 [|p3 ps]]]];
    try (now repeat split; try apply Hdef).
  cbn [width height length].
  split; [apply Hfloor|]. split; [apply Hfloor|].
  intros [H|H]; [lia|discriminate].
Qed.

Lemma parseWindowState_serializeWindowState_witness :
  parseWindowState
    (Some (serializeWindowState
             {| width := Int 1200; height := Int 300; x := Some (Int (-20));
                y := None; maximized := true; fullscreen := false |})) =
  {| width := Int 1200; height := Int 500; x := Some (Int (-20));
     y := Some (Int 0); maximized := true; fullscreen := false |}.
Proof.
  apply (parseWindowState_serializeWindowState
           {| width := Int 1200; height := Int 300; x := Some (Int (-20));
              y := None; maximized := true; fullscreen := false |});
    cbn; lia.
Defined.

Lemma parseWindowState_minimum_witness :
  parseWindowState (Some (js "800,600")) = getDefaultWindowState.
Proof.
  apply (parseWindowState_minimum (Some (js "800,600"))).
  left. vm_compute. lia.
Defined.

End WindowManagerProofs.

Module ErrorHandlerProofs.
Import ErrorHandler.
Local Open Scope eff_scope.
Local Open Scope Z_scope.

Section Retrying.
Context {S E T : Type}.
Variable message : E -> jsstring.
Variable getUserFriendlyError : E -> jsstring.
Variable operation : Eff.M S E T.

Lemma backoff_cons (from : Z) (n : nat) :
  backoff from (Datatypes.S n) = 2 ^ from * 1000 :: backoff (from + 1) n.
Proof.
  unfold backoff. cbn [seq List.map]. rewrite Z.add_0_r. f_equal.
  rewrite <- seq_shift, List.map_map. apply List.map_ext. intros i.
  do 2 f_equal. lia.
Qed.

Lemma timeouts_app (a b : list (Event E)) :
  timeouts (a ++ b) = timeouts b ++ timeouts a.
Proof.
  unfold timeouts. now rewrite rev_app_distr, flat_map_app.
Qed.

Lemma calls_app (a b : list (Event E)) : calls (a ++ b) = (calls a + calls b)%nat.
Proof.
  unfold calls. now rewrite List.filter_app, length_app.
Qed.

Lemma reports_app (a b : list (Event E)) :
  reports (a ++ b) = (reports a + reports b)%nat.
Proof.
  unfold reports. now rewrite List.filter_app, length_app.
Qed.

Lemma added_app (new : list (Event E)) (s s' : St S E) :
  events s' = new ++ events s -> added s s' = new.
Proof.
  intros H. unfold added. rewrite H, length_app.
  replace (length new + length (events s) - length (events s))%nat
    with (length new) by lia.
  now rewrite firstn_app, Nat.sub_diag, firstn_all, app_nil_r.
Qed.

(** The loop: it never throws; it ends with a value after some failed
    attempts, each followed by its delay, or with the last error after
    [remaining] failed attempts, all but the last followed by a delay. *)
Lemma attempts_spec (retry : Z) (remaining : nat) :
  forall (attempt : Z) (lastError : option E) (s : St S E),
    Z.of_nat remaining + attempt = retry + 1 ->
    exists r s' new,
      attempts operation remaining attempt retry lastError s = (Ok r, s') /\
      events s' = new ++ events s /\
      reports new = 0%nat /\
      match r with
      | inl v =>
          (1 <= calls new <= remaining)%nat /\
          timeouts new = backoff attempt (calls new - 1)
      | inr e =>
          calls new = remaining /\
          timeouts new = backoff attempt (remaining - 1) /\
          (remaining = 0%nat -> e = lastError) /\
          (remaining <> 0%nat -> e <> None)
      end.
Proof.
  induction remaining as [|k IH]; intros attempt lastError s Hinv.
  - exists (inr lastError), s, []. cbn. repeat split; auto; congruence.
  - cbn [attempts]. unfold Eff.bind, Eff.attempt, run.
    destruct (operation (inner s)) as [[v|e] i] eqn:Eo.
    + exists (inl v), {| inner := i; events := EvCall :: events s |},
        [EvCall]. cbn. repeat split; lia.
    + assert (Hlt : (attempt <? retry) = negb (Nat.eqb k 0)).
      { destruct k; cbn; [apply Z.ltb_ge|apply Z.ltb_lt]; lia. }
      rewrite Hlt. destruct k as [|k'].
      * cbn. eexists (inr (Some e)), _, [EvCall]. cbn.
        repeat split; auto; congruence.
      * cbn [Nat.eqb negb]. unfold emit, Eff.modify, Eff.ret.
        cbn [inner events].
        match goal with
        | |- context [attempts _ _ _ _ _ ?s1] =>
            destruct (IH (attempt + 1) (Some e) s1 ltac:(lia))
              as (r & s' & new & Hrun & Hev & Hrep & Hr)
        end.
        rewrite Hrun. cbn [events] in Hev.
        exists r, s',
          (new ++ [EvTimeout (2 ^ attempt * 1000);
                   EvWarn (attempt + 1) retry; EvCall]).
        split; [reflexivity|]. split.
        { rewrite Hev, <- app_assoc. reflexivity. }
        split.
        { rewrite reports_app, Hrep. reflexivity. }
        rewrite calls_app, timeouts_app.
        change (calls [EvTimeout (2 ^ attempt * 1000);
                       EvWarn (attempt + 1) retry; EvCall]) with 1%nat.
        change (timeouts [EvTimeout (2 ^ attempt * 1000);
                          EvWarn (attempt + 1) retry; EvCall])
          with [2 ^ attempt * 1000].
        destruct r as [v|e'].
        -- destruct Hr as [Hc Ht]. split; [lia|].
           replace (calls new + 1 - 1)%nat
             with (Datatypes.S (calls new - 1)) by lia.
           rewrite backoff_cons, Ht. reflexivity.
        -- destruct Hr as (Hc & Ht & _ & Hne). repeat split.
           ++ lia.
           ++ replace (Datatypes.S (Datatypes.S k') - 1)%nat
                with (Datatypes.S (Datatypes.S k' - 1)) by lia.
              rewrite backoff_cons, Ht. reflexivity.
           ++ discriminate.
           ++ intros _. apply Hne. discriminate.
Qed.



End Retrying.


End ErrorHandlerProofs.
